(** * SubscriptProxy: a proxy layer in an object's prototype chain

    A shallow embedding of [SubscriptProxy] (the class of
    [subscriptproxy.js]) together with the part of the JavaScript object
    model its traps run on: property keys, plain objects as ordered
    property lists, prototype chains, and the [[Get]], [[HasProperty]] and
    [[OwnPropertyKeys]] internal methods of ordinary objects and of Proxy
    objects.

    Scope of the object model.  Properties are ordinary data properties
    (writable, enumerable, configurable), objects are extensible, and a
    prototype chain is a finite tree-shaped term, so that the Proxy
    invariant checks on [get] and [has] hold vacuously and only the
    duplicate check on [ownKeys] is observable.  Accessor properties are not
    modelled; the single accessor on the paths below, [__proto__] of
    [Object.prototype], is written out where the code reaches it: its
    getter in [Object_prototype], its setter in [assign_member].  A source
    that holds an object or [null] under an own key [__proto__] gives
    [keyValueMap] another prototype when it is copied; such sources are
    outside the model. *)

From Stdlib Require Import List String Ascii ZArith NArith Bool.
From Stdlib Require Import DecimalString Permutation.
Import ListNotations.
Open Scope string_scope.

(** ** Property keys and values *)

(** A property key is a string or a symbol. *)
Inductive key :=
| KStr (s : string)
| KSym (id : nat).

Definition key_eqb (a b : key) : bool :=
  match a, b with
  | KStr s, KStr t => String.eqb s t
  | KSym n, KSym m => Nat.eqb n m
  | _, _ => false
  end.

(** Function objects.  What the code asks of a function is whether it is
    one ([is.fn]), whether it is a generator function ([is.genFn]) and what
    calling it gives.
    - [FUser id]: a function written by the caller; the world says what a
      call returns.
    - [FGen id]: a generator function, or the [Symbol.iterator] method of
      an iterable when that method is a generator function, bound to the
      iterable ([bind] keeps the prototype of the function it binds, so
      [instanceof GeneratorFunction] still holds).
    - [FBoundIter]: a built-in iterator method ([Map.prototype.entries],
      [Array.prototype.values]) bound to its collection; an ordinary
      function.
    - [FReflectGet]: [Reflect.get.bind(Reflect)].
    - [FFallback handler]: the closure [applyTo] wraps around a wildcard
      handler when [fallback] is set.
    - [FObjectProto name]: the built-in function stored at
      [Object.prototype[name]]. *)
Inductive fn :=
| FUser (id : nat)
| FGen (id : nat)
| FBoundIter
| FReflectGet
| FFallback (handler : fn)
| FObjectProto (name : string).

(** JavaScript values.  [VObj id] is an object the model does not look
    into. *)
Inductive value :=
| VUndef
| VNull
| VBool (b : bool)
| VNum (z : Z)
| VStr (s : string)
| VSym (id : nat)
| VFun (f : fn)
| VObj (id : nat).

(** [typeof value === 'function'] *)
Definition is_fn (v : value) : bool :=
  match v with VFun _ => true | _ => false end.

(** [is.fn(value) && value instanceof GeneratorFunction] *)
Definition is_genFn (v : value) : bool :=
  match v with VFun (FGen _) => true | _ => false end.

(** ToBoolean *)
Definition truthy (v : value) : bool :=
  match v with
  | VUndef | VNull => false
  | VBool b => b
  | VNum z => negb (Z.eqb z 0)
  | VStr s => negb (String.eqb s "")
  | VSym _ | VFun _ | VObj _ => true
  end.

(** [a ?? b] *)
Definition nullish (a b : value) : value :=
  match a with VUndef | VNull => b | _ => a end.

(** [key === exception] for a property key and an arbitrary value *)
Definition strict_eq (k : key) (v : value) : bool :=
  match k, v with
  | KStr s, VStr t => String.eqb s t
  | KSym n, VSym m => Nat.eqb n m
  | _, _ => false
  end.

Definition key_value (k : key) : value :=
  match k with KStr s => VStr s | KSym n => VSym n end.

(** The values that are objects. *)
Definition is_object (v : value) : bool :=
  match v with VFun _ | VObj _ => true | _ => false end.

(** The values that are not objects. *)
Inductive primitive :=
| PUndef
| PNull
| PBool (b : bool)
| PNum (z : Z)
| PStr (s : string)
| PSym (id : nat).

Definition prim_value (p : primitive) : value :=
  match p with
  | PUndef => VUndef
  | PNull => VNull
  | PBool b => VBool b
  | PNum z => VNum z
  | PStr s => VStr s
  | PSym id => VSym id
  end.

(** ** Completions *)

Inductive error :=
| TypeError
| Thrown (v : value).

Inductive result (A : Type) :=
| Ok (a : A)
| Throw (e : error).
Arguments Ok {A} a.
Arguments Throw {A} e.

Definition bind {A B} (r : result A) (f : A -> result B) : result B :=
  match r with Ok a => f a | Throw e => Throw e end.

Notation "x <- r ;; k" := (bind r (fun x => k))
  (at level 61, r at next level, right associativity).

(** ** Plain objects as ordered property lists *)

(** Own properties in creation order, one entry per key. *)
Definition props := list (key * value).

Fixpoint lookup (k : key) (o : props) : option value :=
  match o with
  | [] => None
  | (k', v) :: r => if key_eqb k k' then Some v else lookup k r
  end.

(** Defining or assigning an own data property: an existing key keeps its
    place, a new key goes last. *)
Fixpoint set_prop (o : props) (k : key) (v : value) : props :=
  match o with
  | [] => [(k, v)]
  | (k', v') :: r =>
      if key_eqb k k' then (k, v) :: r else (k', v') :: set_prop r k v
  end.

(** *** The order of own keys

    [[OwnPropertyKeys]] of an ordinary object lists array indices in
    ascending numeric order, then the other strings in creation order, then
    symbols in creation order. *)

Definition digit (c : ascii) : option N :=
  let n := N_of_ascii c in
  if (48 <=? n)%N && (n <=? 57)%N then Some (n - 48)%N else None.

Fixpoint digits (acc : N) (s : string) : option N :=
  match s with
  | EmptyString => Some acc
  | String c r =>
      match digit c with
      | Some d => digits (acc * 10 + d)%N r
      | None => None
      end
  end.

(** A canonical numeric string below 2^32 - 1. *)
Definition array_index (k : key) : option N :=
  match k with
  | KSym _ => None
  | KStr EmptyString => None
  | KStr (String c r as s) =>
      if (N_of_ascii c =? 48)%N
      then match r with EmptyString => Some 0%N | _ => None end
      else match digits 0 s with
           | Some n => if (n <=? 4294967294)%N then Some n else None
           | None => None
           end
  end.

Fixpoint insert_index (n : N) (k : key) (l : list (N * key)) : list (N * key) :=
  match l with
  | [] => [(n, k)]
  | (m, k') :: r =>
      if (n <=? m)%N then (n, k) :: l else (m, k') :: insert_index n k r
  end.

Fixpoint index_keys (o : props) : list (N * key) :=
  match o with
  | [] => []
  | (k, _) :: r =>
      match array_index k with
      | Some n => insert_index n k (index_keys r)
      | None => index_keys r
      end
  end.

Definition is_index (k : key) : bool :=
  match array_index k with Some _ => true | None => false end.

Definition is_symbol (k : key) : bool :=
  match k with KSym _ => true | KStr _ => false end.

Definition is_plain_string (k : key) : bool :=
  negb (is_index k) && negb (is_symbol k).

(** [Reflect.ownKeys(o)] *)
Definition ownKeys (o : props) : list key :=
  (map snd (index_keys o)
   ++ filter is_plain_string (map fst o)
   ++ filter is_symbol (map fst o))%list.

(** [Object.keys(o)]: the string keys of [Reflect.ownKeys(o)]. *)
Definition Object_keys (o : props) : list key :=
  filter (fun k => negb (is_symbol k)) (ownKeys o).

(** [array.includes(k)] *)
Definition includes (l : list key) (k : key) : bool :=
  existsb (key_eqb k) l.

(** *** Object.prototype

    [keyValueMap] and [genObject] are plain objects, so [o[k]] on them is a
    full [[Get]]: a key the object does not own is looked up on
    [Object.prototype].  [Object_prototype_methods] lists the methods of
    a standard [Object.prototype].  [Object_prototype] is what a plain
    object reads through it: the methods, and for [__proto__] the answer
    of the accessor, whose getter returns the prototype of the object it
    is read on, here [Object.prototype] itself. *)

Definition Object_prototype_ref : value := VObj 0.

Definition Object_prototype_methods : props :=
  map (fun name => (KStr name, VFun (FObjectProto name)))
      [ "constructor"; "hasOwnProperty"; "isPrototypeOf";
        "propertyIsEnumerable"; "toLocaleString"; "toString"; "valueOf";
        "__defineGetter__"; "__defineSetter__";
        "__lookupGetter__"; "__lookupSetter__" ].

Definition Object_prototype : props :=
  (Object_prototype_methods
   ++ [ (KStr "__proto__", Object_prototype_ref) ])%list.

(** [o[k]] for a plain object [o]. *)
Definition get_member (o : props) (k : key) : value :=
  match lookup k o with
  | Some v => v
  | None =>
      match lookup k Object_prototype with
      | Some v => v
      | None => VUndef
      end
  end.

(** [o[k] = v] for a plain object [o].  The assignment of [__proto__]
    reaches the setter of [Object.prototype] and creates no own property.
    For a value that is not an object and not [null] the setter does
    nothing else.  For an object or [null] it also replaces the prototype
    of [o]: that is outside the model, which keeps [Object.prototype] as
    the prototype of every plain object. *)
Definition assign_member (o : props) (k : key) (v : value) : props :=
  if key_eqb k (KStr "__proto__") then o else set_prop o k v.

(** An element of an array or of an iteration.
    - [APair k v]: a two-element array [[k', v]], with [k] the property
      key [k'] converts to.
    - [AObject e length2 k v]: any other object [e] (a function, an array
      of another length, an array-like): [length2] tells whether
      [e.length == 2] holds, [k] is the property key [e[0]] converts to
      and [v] is [e[1]].
    - [APrimitive p]: a value that is not an object. *)
Inductive aelem :=
| APair (k : key) (v : value)
| AObject (e : value) (length2 : bool) (k : key) (v : value)
| APrimitive (p : primitive).

(** [is.array(e) && e.length === 2] *)
Definition is_pair (e : aelem) : bool :=
  match e with APair _ _ => true | _ => false end.

(** The element is an object. *)
Definition is_entry_object (e : aelem) : bool :=
  match e with APrimitive _ => false | _ => true end.

(** [Object.fromEntries(entries)]: each entry must be an object; its
    elements [0] and [1] give a key and a value, and properties are
    defined one by one, a later entry for a key replacing the value.  An
    entry that is not an object throws. *)
Fixpoint fromEntries_into (o : props) (entries : list aelem) : result props :=
  match entries with
  | [] => Ok o
  | APair k v :: r => fromEntries_into (set_prop o k v) r
  | AObject _ _ k v :: r => fromEntries_into (set_prop o k v) r
  | APrimitive _ :: _ => Throw TypeError
  end.

Definition Object_fromEntries (entries : list aelem) : result props :=
  fromEntries_into [] entries.

(** [Object.assign(target, source)] for plain objects: every own key of
    [source], in [ownKeys] order, is read on [source] and assigned on
    [target]. *)
Definition assign_step (source acc : props) (k : key) : props :=
  match lookup k source with
  | Some v => assign_member acc k v
  | None => acc
  end.

Definition Object_assign (target source : props) : props :=
  fold_left (assign_step source) (ownKeys source) target.

(** ** Prototype chains *)

(** The options of an instance, after [applyTo] has filled in defaults. *)
Record Options := {
  fallback : bool;
  evalFns : bool;
  except : list value;
  copyParentProto : bool
}.

(** The [options] argument of [applyTo]: an absent field is [undefined]. *)
Record options_arg := {
  arg_fallback : option bool;
  arg_evalFns : option bool;
  arg_except : option (list value);
  arg_copyParentProto : option bool
}.

(** An instance of the class, as far as the traps read it. *)
Record SubscriptProxy := {
  keyValueMap : props;
  options : Options
}.

(** An object together with everything above it in its prototype chain:
    the end of the chain ([null]), an ordinary object, or a Proxy whose
    handler is the one [applyTo] builds for [instance]. *)
Inductive obj :=
| ONull
| OOrd (own : props) (proto : obj)
| OProxy (target : obj) (instance : SubscriptProxy).

(** [Object.getPrototypeOf(o)]; a Proxy without that trap forwards to its
    target, [null] has no prototype. *)
Fixpoint getPrototypeOf (o : obj) : result obj :=
  match o with
  | ONull => Throw TypeError
  | OOrd _ proto => Ok proto
  | OProxy target _ => getPrototypeOf target
  end.

(** [Object.setPrototypeOf(o, p)] *)
Fixpoint setPrototypeOf (o : obj) (p : obj) : obj :=
  match o with
  | ONull => ONull
  | OOrd own _ => OOrd own p
  | OProxy target instance => OProxy (setPrototypeOf target p) instance
  end.

(** What lies outside the program: what a call of a user function
    returns, what iterating a generator or an iterable yields at this
    moment, and what the built-ins of [Object.prototype] return when called
    as plain functions. *)
Record world := {
  w_call : nat -> obj -> key -> obj -> result value;
  w_iter : nat -> list aelem;
  w_builtin : string -> obj -> key -> obj -> result value
}.

(** The object a call of a generator function or of an iterator method
    returns. *)
Definition iterator_object : value := VObj 2.

(** [f(target, property, receiver)], with [this] undefined.
    [reflect_get] is [Reflect.get(target, property, receiver)] for the same
    three arguments.  [Object.prototype.toString] called on [undefined]
    returns a fixed string; the other built-ins are left to the world. *)
Fixpoint call_fn (w : world) (reflect_get : result value) (f : fn)
    (target : obj) (property : key) (receiver : obj) : result value :=
  match f with
  | FUser id => w_call w id target property receiver
  | FGen _ | FBoundIter => Ok iterator_object
  | FReflectGet => reflect_get
  | FFallback handler =>
      response <- call_fn w reflect_get handler target property receiver ;;
      match response with
      | VUndef => reflect_get
      | _ => Ok response
      end
  | FObjectProto name =>
      if String.eqb name "toString" then Ok (VStr "[object Undefined]")
      else w_builtin w name target property receiver
  end.

(** Calling a value: a value that is not a function cannot be called. *)
Definition call_value (w : world) (reflect_get : result value) (v : value)
    (target : obj) (property : key) (receiver : obj) : result value :=
  match v with
  | VFun f => call_fn w reflect_get f target property receiver
  | _ => Throw TypeError
  end.

(** ** The class *)

Definition ALL : key := KStr "*".
Definition GENFN : key := KStr "**".

(** [[...iterator()]] when [iterator] is a generator function *)
Definition gentries (w : world) (iterator : value) : list aelem :=
  match iterator with
  | VFun (FGen id) => w_iter w id
  | _ => []
  end.

(** [SubscriptProxy._getRelevantKeys(instance)] *)
Definition _getRelevantKeys (w : world) (instance : SubscriptProxy)
  : result (list key * props) :=
  let iterator := get_member (keyValueMap instance) GENFN in
  let excepts := except (options instance) in
  genObject <- Object_fromEntries (gentries w iterator) ;;
  let keys :=
    (filter (fun key => negb (key_eqb key ALL) && negb (key_eqb key GENFN))
       (filter (fun key => negb (existsb (strict_eq key) excepts))
          (ownKeys (keyValueMap instance)))
     ++ Object_keys genObject)%list in
  Ok (keys, genObject).

(** The [get] trap of the proxy of [instance]. *)
Definition get_trap (w : world) (instance : SubscriptProxy)
    (reflect_get : result value)
    (target : obj) (property : key) (receiver : obj) : result value :=
  let handler := get_member (keyValueMap instance) ALL in
  r <- _getRelevantKeys w instance ;;
  let '(keys, genObject) := r in
  if includes keys property then
    let value :=
      nullish (get_member (keyValueMap instance) property)
              (get_member genObject property) in
    if evalFns (options instance) && is_fn value
    then call_value w reflect_get value target property receiver
    else Ok value
  else if truthy handler
  then call_value w reflect_get handler target property receiver
  else Ok VUndef.

(** The [has] trap; [reflect_has] is [Reflect.has(target, property)]. *)
Definition has_trap (w : world) (instance : SubscriptProxy)
    (reflect_has : result bool) (property : key) : result bool :=
  r <- _getRelevantKeys w instance ;;
  if includes (fst r) property then Ok true else reflect_has.

(** The [ownKeys] trap. *)
Definition ownKeys_trap (w : world) (instance : SubscriptProxy)
  : result (list key) :=
  r <- _getRelevantKeys w instance ;;
  Ok (fst r).

(** ** Reading through a chain *)

(** [[Get]]: [Reflect.get(o, property, receiver)].  An ordinary object
    answers from its own properties or asks its prototype; a Proxy returns
    what its [get] trap returns. *)
Fixpoint js_get (w : world) (o : obj) (property : key) (receiver : obj)
  : result value :=
  match o with
  | ONull => Ok VUndef
  | OOrd own proto =>
      match lookup property own with
      | Some v => Ok v
      | None => js_get w proto property receiver
      end
  | OProxy target instance =>
      get_trap w instance (js_get w target property receiver)
               target property receiver
  end.

(** [[HasProperty]]: [property in o]. *)
Fixpoint js_has (w : world) (o : obj) (property : key) : result bool :=
  match o with
  | ONull => Ok false
  | OOrd own proto =>
      match lookup property own with
      | Some _ => Ok true
      | None => js_has w proto property
      end
  | OProxy target instance =>
      has_trap w instance (js_has w target property) property
  end.

Fixpoint has_duplicates (l : list key) : bool :=
  match l with
  | [] => false
  | k :: r => includes r k || has_duplicates r
  end.

(** [[OwnPropertyKeys]]: [Reflect.ownKeys(o)].  A Proxy rejects a trap
    result that lists a key twice. *)
Definition js_ownKeys (w : world) (o : obj) : result (list key) :=
  match o with
  | ONull => Throw TypeError
  | OOrd own _ => Ok (ownKeys own)
  | OProxy _ instance =>
      keys <- ownKeys_trap w instance ;;
      if has_duplicates keys then Throw TypeError else Ok keys
  end.

(** [o.property] *)
Definition read (w : world) (o : obj) (property : key) : result value :=
  js_get w o property o.

(** ** Installation *)

(** An iterable that is neither an array nor a function: [it_gen] tells
    whether its [Symbol.iterator] method is a generator function, the world
    tells at [it_id] what an iteration yields, [it_own] are its own
    enumerable properties. *)
Record iterable := {
  it_id : nat;
  it_gen : bool;
  it_own : props
}.

(** The [kvMapOrFunction] argument. *)
Inductive source :=
| SrcArray (elems : list aelem)
| SrcFn (f : fn)
| SrcIterable (it : iterable)
| SrcObj (own : props)
| SrcOther.

(** The type checks of [is], on the source argument: [is.array],
    [is.obj] ([value && typeof value === 'object']), [is.fn] and
    [is.iteratorObj] (an object that has [Symbol.iterator]). *)
Definition is_array (s : source) : bool :=
  match s with SrcArray _ => true | _ => false end.

Definition is_obj (s : source) : bool :=
  match s with SrcArray _ | SrcIterable _ | SrcObj _ => true | _ => false end.

Definition is_function (s : source) : bool :=
  match s with SrcFn _ => true | _ => false end.

Definition is_iteratorObj (s : source) : bool :=
  match s with SrcArray _ | SrcIterable _ => true | _ => false end.

(** The elements of an array. *)
Definition elements (s : source) : list aelem :=
  match s with SrcArray elems => elems | _ => [] end.

(** What a fresh iteration [value[Symbol.iterator]()] yields. *)
Definition iteration (w : world) (s : source) : list aelem :=
  match s with
  | SrcArray elems => elems
  | SrcIterable it => w_iter w (it_id it)
  | _ => []
  end.

(** [e?.length == 2]: among the primitives only strings have a length. *)
Definition length_is_2 (e : aelem) : bool :=
  match e with
  | APair _ _ => true
  | AObject _ length2 _ _ => length2
  | APrimitive (PStr s) => Nat.eqb (String.length s) 2
  | APrimitive _ => false
  end.

(** [is.entries(value)]: an array all of whose elements have length 2. *)
Definition is_entries (s : source) : bool :=
  is_array s && forallb length_is_2 (elements s).

Definition first_is_pair (l : list aelem) : bool :=
  match l with
  | e :: _ => is_pair e
  | [] => false
  end.

(** [is.entryIterator(value)]: the first element of a fresh iteration is a
    two-element array. *)
Definition is_entryIterator (w : world) (s : source) : bool :=
  is_iteratorObj s && first_is_pair (iteration w s).

(** The source as a value, when it is a function. *)
Definition function_of (s : source) : value :=
  match s with SrcFn f => VFun f | _ => VUndef end.

(** [value[Symbol.iterator].bind(value)] *)
Definition bound_iterator (s : source) : fn :=
  match s with
  | SrcIterable it => if it_gen it then FGen (it_id it) else FBoundIter
  | _ => FBoundIter
  end.

(** An element of an array read as a property value; a pair is an array
    the model does not look into. *)
Definition elem_value (e : aelem) : value :=
  match e with
  | APair _ _ => VObj 1
  | AObject e _ _ _ => e
  | APrimitive p => prim_value p
  end.

Fixpoint indexed (n : nat) (l : list aelem) : props :=
  match l with
  | [] => []
  | e :: r =>
      (KStr (NilZero.string_of_uint (Nat.to_uint n)), elem_value e)
      :: indexed (S n) r
  end.

(** The own enumerable properties [Object.assign] copies from an object
    source. *)
Definition own_enumerable (s : source) : props :=
  match s with
  | SrcArray elems => indexed 0 elems
  | SrcIterable it => it_own it
  | SrcObj own => own
  | _ => []
  end.

(** The first part of [applyTo]: [keyValueMap] after the chain of tests
    on the source. *)
Definition normalize (w : world) (s : source) : result props :=
  let keyValueMap : props := [] in
  if is_entries s then
    entries <- Object_fromEntries (elements s) ;;
    Ok (Object_assign keyValueMap entries)
  else if is_function s then
    Ok (assign_member keyValueMap ALL (function_of s))
  else if is_entryIterator w s then
    Ok (assign_member keyValueMap GENFN (VFun (bound_iterator s)))
  else if is_obj s then
    Ok (Object_assign keyValueMap (own_enumerable s))
  else
    Ok keyValueMap.

(** The second part: the wildcard entry under [fallback]. *)
Definition with_fallback (keyValueMap : props) : props :=
  match get_member keyValueMap ALL with
  | VFun handler => assign_member keyValueMap ALL (VFun (FFallback handler))
  | _ => assign_member keyValueMap ALL (VFun FReflectGet)
  end.

Definition default {A} (d : A) (o : option A) : A :=
  match o with Some a => a | None => d end.

Definition resolve_options (o : option options_arg) : Options :=
  match o with
  | Some a =>
      {| fallback := default true (arg_fallback a);
         evalFns := default true (arg_evalFns a);
         except := default [] (arg_except a);
         copyParentProto := default true (arg_copyParentProto a) |}
  | None =>
      {| fallback := true; evalFns := true; except := [];
         copyParentProto := true |}
  end.

(** What [applyTo] leaves behind: the instance it returns, the proxy it
    stores in [instance.proxy], and the target with its new prototype. *)
Record applied := {
  instance_of : SubscriptProxy;
  proxy_of : obj;
  target_of : obj
}.

(** [new Proxy(prototype, handler)]: the target must be an object. *)
Definition new_Proxy (prototype : obj) (instance : SubscriptProxy) : result obj :=
  match prototype with
  | ONull => Throw TypeError
  | _ => Ok (OProxy prototype instance)
  end.

(** [SubscriptProxy.applyTo(target, kvMapOrFunction, options)] *)
Definition applyTo (w : world) (target : obj) (kvMapOrFunction : source)
    (opts : option options_arg) : result applied :=
  let o := resolve_options opts in
  keyValueMap0 <- normalize w kvMapOrFunction ;;
  let keyValueMap :=
    if fallback o then with_fallback keyValueMap0 else keyValueMap0 in
  parent <- getPrototypeOf target ;;
  let prototype := if copyParentProto o then OOrd [] parent else parent in
  let instance := {| keyValueMap := keyValueMap; options := o |} in
  proxy <- new_Proxy prototype instance ;;
  Ok {| instance_of := instance;
        proxy_of := proxy;
        target_of := setPrototypeOf target proxy |}.

(** ** Vocabulary of the statements *)

(** The object the proxy of an installed layer wraps: the [target] argument
    of its traps. *)
Definition layer_target (a : applied) : obj :=
  match proxy_of a with
  | OProxy target _ => target
  | o => o
  end.

(** The entries of a literal mapping: the own properties of a plain object,
    or a list of pairs read as the object [Object.fromEntries] makes of it
    (a later pair for a key replaces the earlier value). *)
Definition literal (s : source) : option props :=
  match s with
  | SrcObj own => Some own
  | SrcArray elems =>
      if forallb is_pair elems then
        match Object_fromEntries elems with
        | Ok o => Some o
        | Throw _ => None
        end
      else None
  | _ => None
  end.

(** The first part of the key list of [_getRelevantKeys]: the own keys of
    [keyValueMap] that pass both filters. *)
Definition literal_keys (instance : SubscriptProxy) : list key :=
  filter (fun key => negb (key_eqb key ALL) && negb (key_eqb key GENFN))
    (filter (fun key =>
               negb (existsb (strict_eq key) (except (options instance))))
       (ownKeys (keyValueMap instance))).

(** What the source supplies under the wildcard marker: the value of
    [keyValueMap[ALL]] after the classification of the source, before the
    [fallback] step. *)
Definition wildcard_entry (w : world) (s : source) : value :=
  match normalize w s with
  | Ok keyValueMap => get_member keyValueMap ALL
  | Throw _ => VUndef
  end.

(** [v] is [undefined] or [null]. *)
Definition is_nullish (v : value) : bool :=
  match v with VUndef | VNull => true | _ => false end.

(** ** Sample inputs *)

(** [Object.prototype] as the far end of a chain: its methods.  The
    chains of the model hold data properties only; the accessor
    [__proto__], which answers with the prototype of the receiver, is not
    among them. *)
Definition Object_prototype_obj : obj := OOrd Object_prototype_methods ONull.

(** User functions: [0] is [() => true]; [1] is [() => 'w']; [2] is the
    wildcard handler of the test suite, which answers ['custom fallback']
    for the key [missing] and [undefined] for any other key; [3] is
    [() => 'dynamic value']. *)
Definition sample_call (id : nat) (target : obj) (property : key)
    (receiver : obj) : result value :=
  match id with
  | 0 => Ok (VBool true)
  | 1 => Ok (VStr "w")
  | 2 => if key_eqb property (KStr "missing")
         then Ok (VStr "custom fallback") else Ok VUndef
  | 3 => Ok (VStr "dynamic value")
  | _ => Ok VUndef
  end.

(** Iterations: [7] is the live source of the PORT example, [8] yields a
    symbol key, [9] yields a function, [10] yields a marker key, [11]
    yields the key [a], [12] yields a value that is not a pair. *)
Definition sample_iter (port : string) (id : nat) : list aelem :=
  match id with
  | 7 => [APair (KStr "PORT") (VStr port)]
  | 8 => [APair (KSym 1) (VStr "s")]
  | 9 => [APair (KStr "k") (VFun (FUser 1))]
  | 10 => [APair (KStr "*") (VNum 1)]
  | 11 => [APair (KStr "a") (VNum 2)]
  | 12 => [APair (KStr "a") (VNum 2); APrimitive (PNum 3)]
  | _ => []
  end.

Definition sample_world (port : string) : world :=
  {| w_call := sample_call;
     w_iter := sample_iter port;
     w_builtin := fun _ _ _ _ => Throw TypeError |}.

Definition world0 : world := sample_world "3000".
Definition world1 : world := sample_world "4000".

(** [{ name: 'Cocacola' }] *)
Definition cola : obj :=
  OOrd [(KStr "name", VStr "Cocacola")] Object_prototype_obj.

(** [[['type', 'drink'], ['hasCalories', () => true]]] *)
Definition cola_pairs : source :=
  SrcArray [APair (KStr "type") (VStr "drink");
            APair (KStr "hasCalories") (VFun (FUser 0))].

(** An object with no prototype and one own property. *)
Definition bare : obj := OOrd [(KStr "name", VStr "Cocacola")] ONull.

(** An object that inherits [k: 'deep'] from its parent. *)
Definition heir : obj :=
  OOrd [] (OOrd [(KStr "k", VStr "deep")] Object_prototype_obj).

Definition only_except (keys : list value) : option options_arg :=
  Some {| arg_fallback := None; arg_evalFns := None;
          arg_except := Some keys; arg_copyParentProto := None |}.

Definition no_fallback : option options_arg :=
  Some {| arg_fallback := Some false; arg_evalFns := None;
          arg_except := None; arg_copyParentProto := None |}.

(** An iterable whose [Symbol.iterator] is a generator method, and a
    [Map]-like one whose iterator method is built in. *)
Definition generator_iterable (id : nat) : source :=
  SrcIterable {| it_id := id; it_gen := true; it_own := [] |}.

Definition map_iterable (id : nat) : source :=
  SrcIterable {| it_id := id; it_gen := false; it_own := [] |}.

(** Observations on the outcome of an installation: a read on the target,
    an existence check on the target, the key list of the [ownKeys] trap,
    and the own keys of the installed proxy. *)
Definition reading (w : world) (r : result applied) (k : key) : result value :=
  a <- r ;; read w (target_of a) k.

Definition having (w : world) (r : result applied) (k : key) : result bool :=
  a <- r ;; js_has w (target_of a) k.

Definition relevant (w : world) (r : result applied) : result (list key) :=
  a <- r ;; ownKeys_trap w (instance_of a).

Definition enumerating (w : world) (r : result applied) : result (list key) :=
  a <- r ;; js_ownKeys w (proxy_of a).

(** The entries of [cola_pairs] as an object. *)
Definition cola_entries : props :=
  [(KStr "type", VStr "drink"); (KStr "hasCalories", VFun (FUser 0))].

(** The mapping of the [except] test: three properties. *)
Definition three_props : source :=
  SrcObj [(KStr "prop1", VStr "value1"); (KStr "prop2", VStr "value2");
          (KStr "prop3", VStr "value3")].

(** An object that inherits a property named [*]. *)
Definition star_heir : obj :=
  OOrd [] (OOrd [(ALL, VStr "star")] Object_prototype_obj).


(** The mapping of the nullish test. *)
Definition nullish_props : source :=
  SrcObj [(KStr "nullProp", VNull); (KStr "undefinedProp", VUndef)].

(** A mapping with one entry. *)
Definition one_entry (k : key) (v : value) : source := SrcObj [(k, v)].

(** The target of the test suite; its method is the function [4]. *)
Definition testObj : obj :=
  OOrd [(KStr "originalMethod", VFun (FUser 4));
        (KStr "originalProp", VStr "original value")]
       Object_prototype_obj.

(** Two installations in a row on the same target. *)
Definition chained (w : world) (target : obj) (s1 s2 : source)
  : result applied :=
  a <- applyTo w target s1 None ;; applyTo w (target_of a) s2 None.


(** An [options] argument with the fields [fallback], [evalFns],
    [copyParentProto] and [except]. *)
Definition with_options (f e c : option bool) (x : option (list value))
  : option options_arg :=
  Some {| arg_fallback := f; arg_evalFns := e;
          arg_except := x; arg_copyParentProto := c |}.


(** A later world in which the iterable [13], empty in [world0], yields a
    pair, and the iterable [7] yields something that is not a pair. *)
Definition late_iter (id : nat) : list aelem :=
  match id with
  | 13 => [APair (KStr "PORT") (VStr "4000")]
  | 7 => [APair (KStr "PORT") (VStr "4000"); APrimitive (PNum 3)]
  | _ => sample_iter "4000" id
  end.

Definition late_world : world :=
  {| w_call := sample_call;
     w_iter := late_iter;
     w_builtin := fun _ _ _ _ => Throw TypeError |}.

(** * Properties *)

(** ** Keys *)

Lemma key_eqb_spec a b : reflect (a = b) (key_eqb a b).
Proof.
  destruct a as [s|n], b as [t|m]; simpl; try (constructor; discriminate).
  - destruct (String.eqb_spec s t); constructor; congruence.
  - destruct (Nat.eqb_spec n m); constructor; congruence.
Qed.

Lemma key_eqb_refl a : key_eqb a a = true.
Proof. destruct (key_eqb_spec a a); congruence. Qed.

Lemma key_eqb_eq a b : key_eqb a b = true <-> a = b.
Proof. destruct (key_eqb_spec a b); split; congruence. Qed.

Lemma key_eqb_neq a b : key_eqb a b = false <-> a <> b.
Proof. destruct (key_eqb_spec a b); split; congruence. Qed.

Lemma strict_eq_key_value k k' : strict_eq k (key_value k') = key_eqb k k'.
Proof. destruct k, k'; reflexivity. Qed.

Lemma includes_In l k : includes l k = true <-> In k l.
Proof.
  unfold includes. rewrite existsb_exists. split.
  - intros [x [Hx He]]. apply key_eqb_eq in He. now subst.
  - intros H. exists k. split; [assumption | apply key_eqb_refl].
Qed.

Lemma includes_not_In l k : includes l k = false <-> ~ In k l.
Proof.
  rewrite <- includes_In. destruct (includes l k); split; congruence.
Qed.

Lemma excluded_listed k excepts :
  In (key_value k) excepts -> existsb (strict_eq k) excepts = true.
Proof.
  intros H. apply existsb_exists. exists (key_value k). split; [assumption|].
  rewrite strict_eq_key_value. apply key_eqb_refl.
Qed.

(** ** Property lists *)

Lemma lookup_None k o : lookup k o = None <-> ~ In k (map fst o).
Proof.
  induction o as [|[k' v] r IH]; simpl.
  - tauto.
  - destruct (key_eqb_spec k k') as [->|Hne].
    + split; [discriminate | intros H; exfalso; apply H; now left].
    + rewrite IH. split; [intros H [E|I]; [congruence | tauto] | tauto].
Qed.

Lemma lookup_Some_In k v o : lookup k o = Some v -> In k (map fst o).
Proof.
  intros H. destruct (in_dec (fun a b => reflect_dec _ _ (key_eqb_spec a b))
                             k (map fst o)) as [I|N]; [assumption|].
  apply lookup_None in N. congruence.
Qed.

Lemma lookup_set_prop o k v k' :
  lookup k' (set_prop o k v) = if key_eqb k' k then Some v else lookup k' o.
Proof.
  induction o as [|[k0 v0] r IH]; simpl.
  - reflexivity.
  - destruct (key_eqb_spec k k0) as [->|Hne]; simpl.
    + destruct (key_eqb k' k0); reflexivity.
    + rewrite IH. destruct (key_eqb_spec k' k0) as [->|Hne'].
      * destruct (key_eqb_spec k0 k); congruence.
      * reflexivity.
Qed.



Lemma lookup_assign_member o k v k' :
  lookup k' (assign_member o k v) =
  if key_eqb k (KStr "__proto__") then lookup k' o
  else if key_eqb k' k then Some v else lookup k' o.
Proof.
  unfold assign_member. destruct (key_eqb k (KStr "__proto__")).
  - reflexivity.
  - apply lookup_set_prop.
Qed.


(** ** The order of own keys is a rearrangement of the creation order *)

Lemma insert_index_perm n k l :
  Permutation (insert_index n k l) ((n, k) :: l).
Proof.
  induction l as [|[m k'] r IH]; simpl.
  - apply Permutation_refl.
  - destruct (n <=? m)%N.
    + apply Permutation_refl.
    + eapply perm_trans; [apply perm_skip, IH | apply perm_swap].
Qed.

Lemma index_keys_perm o :
  Permutation (map snd (index_keys o)) (filter is_index (map fst o)).
Proof.
  induction o as [|[k v] r IH]; simpl.
  - constructor.
  - unfold is_index at 1. destruct (array_index k) as [n|].
    + eapply perm_trans.
      * apply Permutation_map, insert_index_perm.
      * simpl. now apply perm_skip.
    + assumption.
Qed.

Lemma three_way_perm (l : list key) :
  Permutation
    (filter is_index l ++ filter is_plain_string l ++ filter is_symbol l) l.
Proof.
  induction l as [|k r IH]; simpl.
  - constructor.
  - unfold is_plain_string at 1.
    destruct (is_index k) eqn:Ei; simpl.
    + assert (is_symbol k = false) as ->
        by (destruct k; [reflexivity | discriminate Ei]).
      now apply perm_skip.
    + destruct (is_symbol k); simpl.
      * apply Permutation_sym.
        rewrite app_assoc.
        eapply perm_trans; [| apply Permutation_middle].
        apply perm_skip. rewrite <- app_assoc. now apply Permutation_sym.
      * apply Permutation_sym.
        eapply perm_trans; [| apply Permutation_middle].
        apply perm_skip. now apply Permutation_sym.
Qed.

Lemma ownKeys_perm o : Permutation (ownKeys o) (map fst o).
Proof.
  unfold ownKeys.
  eapply perm_trans; [| apply three_way_perm].
  apply Permutation_app_tail, index_keys_perm.
Qed.

Lemma ownKeys_In o k : In k (ownKeys o) <-> In k (map fst o).
Proof.
  split; apply Permutation_in;
    [apply ownKeys_perm | apply Permutation_sym, ownKeys_perm].
Qed.


Lemma Object_keys_In o k :
  In k (Object_keys o) <-> In k (map fst o) /\ is_symbol k = false.
Proof.
  unfold Object_keys. rewrite filter_In, ownKeys_In, negb_true_iff. tauto.
Qed.


(** ** Object.fromEntries and Object.assign *)



Lemma lookup_assign_step source acc k0 k :
  lookup k (assign_step source acc k0) =
  if key_eqb k k0 && negb (key_eqb k (KStr "__proto__"))
  then match lookup k source with
       | Some v => Some v
       | None => lookup k acc
       end
  else lookup k acc.
Proof.
  unfold assign_step. destruct (key_eqb_spec k k0) as [->|Hne]; simpl.
  - destruct (lookup k0 source) as [v|].
    + rewrite lookup_assign_member, key_eqb_refl.
      now destruct (key_eqb k0 (KStr "__proto__")).
    + now destruct (key_eqb k0 (KStr "__proto__")).
  - destruct (lookup k0 source) as [v|]; [| reflexivity].
    rewrite lookup_assign_member.
    apply key_eqb_neq in Hne. rewrite Hne.
    now destruct (key_eqb k0 (KStr "__proto__")).
Qed.

Lemma lookup_assign_fold source k l : forall acc,
  lookup k (fold_left (assign_step source) l acc) =
  if includes l k && negb (key_eqb k (KStr "__proto__"))
  then match lookup k source with
       | Some v => Some v
       | None => lookup k acc
       end
  else lookup k acc.
Proof.
  induction l as [|k0 r IH]; intros acc; simpl.
  - reflexivity.
  - rewrite IH, lookup_assign_step.
    destruct (key_eqb k k0), (includes r k),
      (key_eqb k (KStr "__proto__")), (lookup k source); reflexivity.
Qed.


(** After [Object.assign(target, source)] a key other than [__proto__]
    reads from [source] when [source] owns it, else from [target]. *)
Lemma lookup_Object_assign target source k :
  k <> KStr "__proto__" ->
  lookup k (Object_assign target source) =
  match lookup k source with
  | Some v => Some v
  | None => lookup k target
  end.
Proof.
  intros Hk. unfold Object_assign. rewrite lookup_assign_fold.
  apply key_eqb_neq in Hk. rewrite Hk, andb_true_r.
  destruct (includes (ownKeys source) k) eqn:E.
  - reflexivity.
  - apply includes_not_In in E. rewrite ownKeys_In in E.
    apply lookup_None in E. now rewrite E.
Qed.

Lemma lookup_Object_assign_proto target source :
  lookup (KStr "__proto__") (Object_assign target source) =
  lookup (KStr "__proto__") target.
Proof.
  unfold Object_assign. rewrite lookup_assign_fold.
  rewrite key_eqb_refl, andb_false_r. reflexivity.
Qed.


(** ** Normalization of the source *)

Lemma normalize_literal w s M :
  literal s = Some M -> normalize w s = Ok (Object_assign [] M).
Proof.
  destruct s as [elems|f|it|own|]; simpl; try discriminate.
  - destruct (forallb is_pair elems) eqn:Hp; [|discriminate].
    assert (Hl : forallb length_is_2 elems = true).
    { rewrite forallb_forall in *. intros e He.
      specialize (Hp e He). now destruct e. }
    unfold normalize, is_entries. simpl. rewrite Hl.
    destruct (Object_fromEntries elems) as [o|e]; [|discriminate].
    intros [= ->]. reflexivity.
  - intros [= ->]. reflexivity.
Qed.


Lemma lookup_with_fallback kvm k :
  lookup k (with_fallback kvm) =
  if key_eqb k ALL
  then Some (VFun (match get_member kvm ALL with
                   | VFun handler => FFallback handler
                   | _ => FReflectGet
                   end))
  else lookup k kvm.
Proof.
  unfold with_fallback.
  destruct (get_member kvm ALL); rewrite lookup_assign_member; reflexivity.
Qed.


Lemma get_member_own o k v : lookup k o = Some v -> get_member o k = v.
Proof. unfold get_member. now intros ->. Qed.

Lemma get_member_inherited o k :
  lookup k o = None ->
  get_member o k =
  match lookup k Object_prototype with Some v => v | None => VUndef end.
Proof. unfold get_member. now intros ->. Qed.

(** ** What applyTo installs on an ordinary target *)

Lemma applyTo_ordinary w own proto s opts a :
  applyTo w (OOrd own proto) s opts = Ok a ->
  exists kvm0,
    normalize w s = Ok kvm0 /\
    keyValueMap (instance_of a) =
      (if fallback (resolve_options opts) then with_fallback kvm0 else kvm0) /\
    options (instance_of a) = resolve_options opts /\
    layer_target a =
      (if copyParentProto (resolve_options opts) then OOrd [] proto else proto) /\
    proxy_of a = OProxy (layer_target a) (instance_of a) /\
    target_of a = OOrd own (proxy_of a).
Proof.
  unfold applyTo. destruct (normalize w s) as [kvm0|e]; simpl; [|discriminate].
  unfold layer_target.
  destruct (copyParentProto (resolve_options opts)); simpl.
  - intros [= <-]. exists kvm0. simpl. repeat split.
  - destruct proto; simpl; [discriminate | |];
      intros [= <-]; exists kvm0; simpl; repeat split.
Qed.

Lemma js_get_layer_target w own proto s opts a k r :
  applyTo w (OOrd own proto) s opts = Ok a ->
  js_get w (layer_target a) k r = js_get w proto k r.
Proof.
  intros H. apply applyTo_ordinary in H as (kvm0 & _ & _ & _ & Ht & _).
  rewrite Ht. now destruct (copyParentProto (resolve_options opts)).
Qed.

Lemma js_has_layer_target w own proto s opts a k :
  applyTo w (OOrd own proto) s opts = Ok a ->
  js_has w (layer_target a) k = js_has w proto k.
Proof.
  intros H. apply applyTo_ordinary in H as (kvm0 & _ & _ & _ & Ht & _).
  rewrite Ht. now destruct (copyParentProto (resolve_options opts)).
Qed.

(** A read on the target after installation: an own property answers,
    any other key goes to the [get] trap of the layer. *)
Lemma read_through_layer w own proto s opts a k :
  applyTo w (OOrd own proto) s opts = Ok a ->
  read w (target_of a) k =
  match lookup k own with
  | Some v => Ok v
  | None =>
      get_trap w (instance_of a) (js_get w proto k (target_of a))
               (layer_target a) k (target_of a)
  end.
Proof.
  intros H. pose proof (js_get_layer_target _ _ _ _ _ _ k (target_of a) H) as Hg.
  apply applyTo_ordinary in H as (kvm0 & _ & _ & _ & _ & Hp & Ht).
  unfold read. rewrite Ht at 1. simpl.
  destruct (lookup k own); [reflexivity|].
  rewrite Hp at 1. simpl. now rewrite Hg.
Qed.


(** ** The relevant keys *)

Lemma getRelevantKeys_inv w instance keys genObject :
  _getRelevantKeys w instance = Ok (keys, genObject) ->
  Object_fromEntries (gentries w (get_member (keyValueMap instance) GENFN))
    = Ok genObject /\
  keys = (literal_keys instance ++ Object_keys genObject)%list.
Proof.
  unfold _getRelevantKeys, literal_keys.
  destruct (Object_fromEntries _) as [g|e]; simpl; [|discriminate].
  intros [= <- <-]. split; reflexivity.
Qed.

Lemma literal_keys_In instance k :
  In k (literal_keys instance) <->
  In k (map fst (keyValueMap instance)) /\
  existsb (strict_eq k) (except (options instance)) = false /\
  k <> ALL /\ k <> GENFN.
Proof.
  unfold literal_keys.
  rewrite !filter_In, ownKeys_In, andb_true_iff, !negb_true_iff,
    !key_eqb_neq.
  tauto.
Qed.


(** Without a generator function under the marker [**] the snapshot is
    empty and the relevant keys are the literal keys. *)
Lemma getRelevantKeys_no_generator w instance :
  is_genFn (get_member (keyValueMap instance) GENFN) = false ->
  _getRelevantKeys w instance = Ok (literal_keys instance, []).
Proof.
  intros H. unfold _getRelevantKeys, literal_keys.
  assert (gentries w (get_member (keyValueMap instance) GENFN) = []) as ->.
  { destruct (get_member (keyValueMap instance) GENFN) as [| | | | | |f|];
      try reflexivity.
    destruct f; try reflexivity. discriminate. }
  simpl. unfold Object_keys. simpl. now rewrite app_nil_r.
Qed.

(** ** Literal mappings (C1) *)

Lemma literal_installed w own proto s opts M a k :
  literal s = Some M ->
  applyTo w (OOrd own proto) s opts = Ok a ->
  k <> ALL -> k <> KStr "__proto__" ->
  lookup k (keyValueMap (instance_of a)) = lookup k M.
Proof.
  intros HM Ha Hall Hproto.
  apply applyTo_ordinary in Ha as (kvm0 & Hn & Hk & _).
  rewrite (normalize_literal w _ _ HM) in Hn. injection Hn as <-.
  assert (H : lookup k (Object_assign [] M) = lookup k M).
  { rewrite lookup_Object_assign by assumption. now destruct (lookup k M). }
  rewrite Hk. destruct (fallback (resolve_options opts)); [|exact H].
  rewrite lookup_with_fallback.
  apply key_eqb_neq in Hall. now rewrite Hall.
Qed.

Lemma applyTo_literal_succeeds w own proto s M opts :
  literal s = Some M ->
  copyParentProto (resolve_options opts) = true ->
  exists a, applyTo w (OOrd own proto) s opts = Ok a.
Proof.
  intros HM Hc. unfold applyTo.
  rewrite (normalize_literal w _ _ HM). simpl. rewrite Hc. simpl.
  eexists. reflexivity.
Qed.

(** C1, as amended.  For every target [T] and every literal mapping [M]
    (plain object or pair list) whose keys are not own keys of [T], which
    stores no generator function under the marker [**] and holds no
    object under [__proto__]: after [applyTo(T, M)] every key [K] of [M]
    other than [*], [**] and [__proto__] whose mapped value is not [null]
    reads on [T] as the mapped value, a callable value being called with
    the trap's arguments and its result returned (for a mapped
    [undefined], [K] not naming a property of [Object.prototype]); and
    every own property of [T] still reads as its own value. *)
Theorem C1_literal_entries_read_as_mapped w own proto s M K v :
  literal s = Some M ->
  (forall k, In k (map fst M) -> lookup k own = None) ->
  (forall id, lookup GENFN M <> Some (VFun (FGen id))) ->
  (forall p, lookup (KStr "__proto__") M = Some p -> is_object p = false) ->
  lookup K M = Some v ->
  K <> ALL -> K <> GENFN -> K <> KStr "__proto__" ->
  v <> VNull ->
  (v = VUndef -> lookup K Object_prototype = None) ->
  exists a,
    applyTo w (OOrd own proto) s None = Ok a /\
    read w (target_of a) K =
      match v with
      | VFun f =>
          call_fn w (js_get w proto K (target_of a)) f
                  (layer_target a) K (target_of a)
      | _ => Ok v
      end /\
    forall K' v', lookup K' own = Some v' -> read w (target_of a) K' = Ok v'.
Proof.
  intros HM Hdisj Hgen _ HK Hall Hgenfn Hproto Hnull Hundef.
  destruct (applyTo_literal_succeeds w own proto s M None HM eq_refl)
    as [a Ha].
  exists a. split; [exact Ha|].
  pose proof (applyTo_ordinary _ _ _ _ _ _ Ha) as (kvm0 & _ & _ & Ho & _).
  split.
  - rewrite (read_through_layer _ _ _ _ _ _ K Ha).
    rewrite (Hdisj K (lookup_Some_In _ _ _ HK)).
    assert (HKi : lookup K (keyValueMap (instance_of a)) = Some v)
      by (rewrite (literal_installed w own proto s None M a K); assumption).
    assert (HG : is_genFn (get_member (keyValueMap (instance_of a)) GENFN)
                 = false).
    { unfold get_member.
      rewrite (literal_installed w own proto s None M a GENFN)
        by (assumption || discriminate).
      destruct (lookup GENFN M) as [[| | | | | |[]|]|] eqn:E;
        try reflexivity.
      exfalso. eapply Hgen. reflexivity. }
    unfold get_trap. rewrite (getRelevantKeys_no_generator _ _ HG). simpl.
    assert (Hin : includes (literal_keys (instance_of a)) K = true).
    { apply includes_In, literal_keys_In.
      rewrite Ho. simpl. repeat split; try assumption.
      eapply lookup_Some_In; eassumption. }
    rewrite Hin, Ho. simpl.
    rewrite (get_member_own _ _ _ HKi).
    assert (Hg : v = VUndef -> get_member [] K = VUndef).
    { intros Hv. rewrite get_member_inherited by reflexivity.
      now rewrite (Hundef Hv). }
    destruct v; try reflexivity.
    + unfold nullish. now rewrite (Hg eq_refl).
    + congruence.
  - intros K' v' HK'.
    rewrite (read_through_layer _ _ _ _ _ _ K' Ha). now rewrite HK'.
Qed.

Lemma C1_witness :
  literal cola_pairs = Some cola_entries /\
  lookup (KStr "__proto__") cola_entries = None /\
  lookup (KStr "hasCalories") cola_entries = Some (VFun (FUser 0)) /\
  lookup (KStr "type") cola_entries = Some (VStr "drink") /\
  exists a,
    applyTo world0 cola cola_pairs None = Ok a /\
    read world0 (target_of a) (KStr "hasCalories") = Ok (VBool true) /\
    read world0 (target_of a) (KStr "type") = Ok (VStr "drink") /\
    read world0 (target_of a) (KStr "name") = Ok (VStr "Cocacola").
Proof.
  assert (Hd : forall k, In k (map fst cola_entries) ->
                         lookup k [(KStr "name", VStr "Cocacola")] = None)
    by (intros k [<-|[<-|[]]]; reflexivity).
  repeat split; try reflexivity.
  destruct (C1_literal_entries_read_as_mapped world0
              [(KStr "name", VStr "Cocacola")] Object_prototype_obj
              cola_pairs cola_entries (KStr "hasCalories") (VFun (FUser 0))
              eq_refl Hd)
    as (a & Ha & Hcal & Hown); try discriminate; try reflexivity.
  destruct (C1_literal_entries_read_as_mapped world0
              [(KStr "name", VStr "Cocacola")] Object_prototype_obj
              cola_pairs cola_entries (KStr "type") (VStr "drink")
              eq_refl Hd)
    as (a' & Ha' & Htype & _); try discriminate; try reflexivity.
  assert (a' = a) as -> by (unfold cola in *; congruence).
  exists a. repeat split.
  - exact Ha.
  - exact Hcal.
  - exact Htype.
  - apply Hown. reflexivity.
Defined.

(** C1 as stated fails on four kinds of input.  A key mapped to [null]
    reads as [undefined]; a mapping that uses the marker keys [*] and [**]
    as property names does not make them readable; an entry named
    [__proto__] is swallowed by the setter of [Object.prototype] when the
    mapping is copied; and a generator function stored under [**] that
    yields something that is not a pair makes the read of an unrelated
    key throw. *)
Lemma C1_counterexample :
  reading world0
    (applyTo world0 cola (SrcObj [(KStr "k", VNull)]) None) (KStr "k") = Ok VUndef /\
  reading world0
    (applyTo world0 cola (SrcObj [(ALL, VStr "x"); (GENFN, VStr "y")]) None) ALL = Ok VUndef /\
  reading world0
    (applyTo world0 cola (SrcObj [(ALL, VStr "x"); (GENFN, VStr "y")]) None) GENFN = Ok VUndef /\
  reading world0
    (applyTo world0 bare (SrcArray [APair (KStr "__proto__") (VStr "x")]) None) (KStr "__proto__") = Ok VUndef /\
  reading world0
    (applyTo world0 cola
           (SrcObj [(KStr "type", VStr "drink"); (GENFN, VFun (FGen 12))]) None) (KStr "type") = Throw TypeError.
Proof. repeat split; reflexivity. Qed.

(** ** Reads that miss the relevant keys *)

(** A key the layer does not claim goes to the wildcard handler, if there
    is one. *)
Lemma get_trap_miss w instance rg target k receiver keys genObject :
  _getRelevantKeys w instance = Ok (keys, genObject) ->
  ~ In k keys ->
  get_trap w instance rg target k receiver =
  if truthy (get_member (keyValueMap instance) ALL)
  then call_value w rg (get_member (keyValueMap instance) ALL)
                  target k receiver
  else Ok VUndef.
Proof.
  intros HR Hn. unfold get_trap. rewrite HR. simpl.
  apply includes_not_In in Hn. now rewrite Hn.
Qed.

(** A key the layer claims is resolved from the mapping, then from the
    snapshot. *)
Lemma get_trap_hit w instance rg target k receiver keys genObject :
  _getRelevantKeys w instance = Ok (keys, genObject) ->
  In k keys ->
  get_trap w instance rg target k receiver =
  let value := nullish (get_member (keyValueMap instance) k)
                       (get_member genObject k) in
  if evalFns (options instance) && is_fn value
  then call_value w rg value target k receiver
  else Ok value.
Proof.
  intros HR Hi. unfold get_trap. rewrite HR. simpl.
  apply includes_In in Hi. now rewrite Hi.
Qed.

Lemma native_get w own proto k r :
  js_get w (OOrd own proto) k r =
  match lookup k own with
  | Some v => Ok v
  | None => js_get w proto k r
  end.
Proof. reflexivity. Qed.

(** ** Excluded keys (C2) *)

(** Where the exclusion works: a key listed in [except] is never claimed
    on account of the literal mapping, it is a relevant key exactly when
    the generator snapshot yields it; and when the snapshot does not yield
    it and the installed wildcard handler is the default inherited lookup,
    its read gives what the lookup along the original chain gives. *)
Lemma excluded_key_not_claimed_by_literal
    w own proto s opts a K keys genObject :
  applyTo w (OOrd own proto) s opts = Ok a ->
  In (key_value K) (except (resolve_options opts)) ->
  _getRelevantKeys w (instance_of a) = Ok (keys, genObject) ->
  ~ In K (literal_keys (instance_of a)) /\
  (In K keys <-> In K (Object_keys genObject)) /\
  (~ In K (Object_keys genObject) ->
   get_member (keyValueMap (instance_of a)) ALL = VFun FReflectGet ->
   read w (target_of a) K = js_get w (OOrd own proto) K (target_of a)).
Proof.
  intros Ha Hex HR.
  pose proof (applyTo_ordinary _ _ _ _ _ _ Ha) as (kvm0 & _ & _ & Ho & _).
  assert (Hlit : ~ In K (literal_keys (instance_of a))).
  { rewrite literal_keys_In, Ho. intros (_ & Hf & _).
    rewrite (excluded_listed _ _ Hex) in Hf. discriminate. }
  destruct (getRelevantKeys_inv _ _ _ _ HR) as [_ ->].
  split; [exact Hlit|]. split.
  - rewrite in_app_iff. tauto.
  - intros Hgen Hall.
    rewrite (read_through_layer _ _ _ _ _ _ K Ha), native_get.
    destruct (lookup K own); [reflexivity|].
    rewrite (get_trap_miss _ _ _ _ _ _ _ _ HR), Hall.
    + reflexivity.
    + rewrite in_app_iff. tauto.
Qed.

(** C2, at three failing inputs.  The key [k] is listed in [except] and
    the target inherits [k: 'deep'].  With a wildcard handler that answers
    ['w'] for every key, alone or beside a literal entry for [k], reading
    [k] gives ['w'], the handler's answer, and not the inherited value.
    With a generator source that yields [a], listed in [except], and a
    target that has no [a], [a] is a relevant key and reads as the yielded
    value. *)
Theorem C2_excluded_key_is_still_resolved :
  read world0 heir (KStr "k") = Ok (VStr "deep") /\
  reading world0
    (applyTo world0 heir (SrcFn (FUser 1)) (only_except [VStr "k"]))
    (KStr "k") = Ok (VStr "w") /\
  reading world0
    (applyTo world0 heir
       (SrcObj [(ALL, VFun (FUser 1)); (KStr "k", VStr "mapped")])
       (only_except [VStr "k"]))
    (KStr "k") = Ok (VStr "w") /\
  read world0 cola (KStr "a") = Ok VUndef /\
  relevant world0
    (applyTo world0 cola (generator_iterable 11) (only_except [VStr "a"]))
    = Ok [KStr "a"] /\
  reading world0
    (applyTo world0 cola (generator_iterable 11) (only_except [VStr "a"]))
    (KStr "a") = Ok (VNum 2).
Proof. repeat split; reflexivity. Qed.

(** ** Wildcard and fallback (C3, C4) *)

Lemma installed_wildcard w own proto s opts a :
  applyTo w (OOrd own proto) s opts = Ok a ->
  get_member (keyValueMap (instance_of a)) ALL =
  if fallback (resolve_options opts)
  then VFun (match wildcard_entry w s with
             | VFun handler => FFallback handler
             | _ => FReflectGet
             end)
  else wildcard_entry w s.
Proof.
  intros Ha. apply applyTo_ordinary in Ha as (kvm0 & Hn & Hk & _).
  unfold wildcard_entry. rewrite Hn, Hk.
  destruct (fallback (resolve_options opts)); [|reflexivity].
  unfold get_member at 1. rewrite lookup_with_fallback. reflexivity.
Qed.

(** C3.  With [fallback] set: if the source supplies a wildcard handler
    and that handler returns [undefined] for a key [K] the layer does not
    claim, reading [T.K] returns what the lookup along the original
    prototype chain returns; and if the source supplies no wildcard
    handler, the installed wildcard handler is exactly the default
    inherited lookup: it is [Reflect.get], calling it with a target, a
    key and a receiver returns what [Reflect.get] returns for them, and
    reading through it a key the layer does not claim returns what the
    lookup along the original prototype chain returns. *)
Theorem C3_fallback_composition w own proto s opts a :
  applyTo w (OOrd own proto) s opts = Ok a ->
  fallback (resolve_options opts) = true ->
  (forall handler K keys genObject,
     wildcard_entry w s = VFun handler ->
     _getRelevantKeys w (instance_of a) = Ok (keys, genObject) ->
     ~ In K keys ->
     call_fn w (js_get w (layer_target a) K (target_of a)) handler
             (layer_target a) K (target_of a) = Ok VUndef ->
     read w (target_of a) K = js_get w (OOrd own proto) K (target_of a)) /\
  (is_fn (wildcard_entry w s) = false ->
   get_member (keyValueMap (instance_of a)) ALL = VFun FReflectGet /\
   (forall target K receiver,
      call_value w (js_get w target K receiver)
                 (get_member (keyValueMap (instance_of a)) ALL)
                 target K receiver
      = js_get w target K receiver) /\
   (forall K keys genObject,
      _getRelevantKeys w (instance_of a) = Ok (keys, genObject) ->
      ~ In K keys ->
      read w (target_of a) K = js_get w (OOrd own proto) K (target_of a))).
Proof.
  intros Ha Hf. pose proof (installed_wildcard _ _ _ _ _ _ Ha) as Hw.
  rewrite Hf in Hw. split.
  - intros handler K keys genObject He HR Hn Hcall.
    rewrite He in Hw.
    rewrite (js_get_layer_target _ _ _ _ _ _ K (target_of a) Ha) in Hcall.
    rewrite (read_through_layer _ _ _ _ _ _ K Ha), native_get.
    destruct (lookup K own); [reflexivity|].
    rewrite (get_trap_miss _ _ _ _ _ _ _ _ HR Hn), Hw. simpl.
    now rewrite Hcall.
  - intros Hnf.
    assert (Hd : get_member (keyValueMap (instance_of a)) ALL
                 = VFun FReflectGet).
    { rewrite Hw. destruct (wildcard_entry w s); try reflexivity.
      discriminate. }
    split; [exact Hd|]. split.
    + intros target K receiver. now rewrite Hd.
    + intros K keys genObject HR Hn.
      rewrite (read_through_layer _ _ _ _ _ _ K Ha), native_get.
      destruct (lookup K own); [reflexivity|].
      now rewrite (get_trap_miss _ _ _ _ _ _ _ _ HR Hn), Hd.
Qed.

Lemma C3_witness :
  exists a,
    applyTo world0 heir (SrcFn (FUser 2)) None = Ok a /\
    wildcard_entry world0 (SrcFn (FUser 2)) = VFun (FUser 2) /\
    read world0 (target_of a) (KStr "missing") = Ok (VStr "custom fallback") /\
    read world0 (target_of a) (KStr "k") = Ok (VStr "deep") /\
    exists b,
      applyTo world0 heir three_props None = Ok b /\
      is_fn (wildcard_entry world0 three_props) = false /\
      get_member (keyValueMap (instance_of b)) ALL = VFun FReflectGet /\
      call_value world0 (js_get world0 heir (KStr "k") heir)
                 (get_member (keyValueMap (instance_of b)) ALL)
                 heir (KStr "k") heir = Ok (VStr "deep") /\
      read world0 (target_of b) (KStr "k") = Ok (VStr "deep") /\
      read world0 (target_of b) (KStr "prop1") = Ok (VStr "value1").
Proof.
  eexists. split; [reflexivity|]. split; [reflexivity|].
  split; [reflexivity|]. split.
  - match goal with
    | |- read _ (target_of ?a) _ = _ =>
        destruct (C3_fallback_composition world0 []
                    (OOrd [(KStr "k", VStr "deep")] Object_prototype_obj)
                    (SrcFn (FUser 2)) None a eq_refl eq_refl) as [H _]
    end.
    rewrite (H (FUser 2) (KStr "k") [] [] eq_refl eq_refl);
      [reflexivity | intros [] | reflexivity].
  - eexists. split; [reflexivity|]. split; [reflexivity|].
    match goal with
    | |- get_member (keyValueMap (instance_of ?b)) _ = _ /\ _ =>
        destruct (C3_fallback_composition world0 []
                    (OOrd [(KStr "k", VStr "deep")] Object_prototype_obj)
                    three_props None b eq_refl eq_refl) as [_ H]
    end.
    destruct (H eq_refl) as (H1 & H2 & H3).
    split; [exact H1|]. split; [|split].
    + rewrite (H2 heir (KStr "k") heir). reflexivity.
    + rewrite (H3 (KStr "k") [KStr "prop1"; KStr "prop2"; KStr "prop3"] []
                 eq_refl).
      * reflexivity.
      * simpl. intros [E|[E|[E|[]]]]; discriminate E.
    + reflexivity.
Defined.

(** C4, as amended.  When [fallback] is disabled and the source supplies no
    wildcard handler, a miss of the [get] trap returns [undefined], and
    that [undefined] is the result of the read: the lookup does not go on
    past the proxy.  For every key [K] that [T] does not own and the layer
    does not claim, reading [T.K] yields [undefined], whatever the original
    prototype chain holds for [K]; an own property of [T] still reads as
    its value. *)
Theorem C4_miss_without_fallback_is_undefined
    w own proto s opts a K keys genObject :
  applyTo w (OOrd own proto) s opts = Ok a ->
  fallback (resolve_options opts) = false ->
  truthy (wildcard_entry w s) = false ->
  _getRelevantKeys w (instance_of a) = Ok (keys, genObject) ->
  ~ In K keys ->
  read w (target_of a) K =
  match lookup K own with
  | Some v => Ok v
  | None => Ok VUndef
  end.
Proof.
  intros Ha Hf Ht HR Hn.
  pose proof (installed_wildcard _ _ _ _ _ _ Ha) as Hw. rewrite Hf in Hw.
  rewrite (read_through_layer _ _ _ _ _ _ K Ha).
  destruct (lookup K own); [reflexivity|].
  now rewrite (get_trap_miss _ _ _ _ _ _ _ _ HR Hn), Hw, Ht.
Qed.

Lemma C4_witness :
  exists a,
    applyTo world0 heir three_props no_fallback = Ok a /\
    truthy (wildcard_entry world0 three_props) = false /\
    js_get world0 heir (KStr "k") (target_of a) = Ok (VStr "deep") /\
    read world0 (target_of a) (KStr "k") = Ok VUndef.
Proof.
  eexists. split; [reflexivity|]. split; [reflexivity|].
  split; [reflexivity|].
  match goal with
  | |- read _ (target_of ?a) _ = _ =>
      rewrite (C4_miss_without_fallback_is_undefined world0 []
                 (OOrd [(KStr "k", VStr "deep")] Object_prototype_obj)
                 three_props no_fallback a (KStr "k")
                 [KStr "prop1"; KStr "prop2"; KStr "prop3"] []
                 eq_refl eq_refl eq_refl eq_refl)
  end.
  - reflexivity.
  - simpl. intros [H|[H|[H|[]]]]; discriminate H.
Defined.

(** C4 as stated fails.  An object inherits [k: 'deep']; after an
    installation with [fallback: false] and a mapping without wildcard,
    the key [k], which the layer does not claim, reads as [undefined]: the
    inherited value is no longer reachable. *)
Lemma C4_counterexample :
  read world0 heir (KStr "k") = Ok (VStr "deep") /\
  reading world0
    (applyTo world0 heir three_props no_fallback) (KStr "k") = Ok VUndef.
Proof. split; reflexivity. Qed.

(** ** Iterable sources (C5) *)

(** The relevant keys are computed from the world of the moment of the
    trap call: nothing of an earlier computation is kept. *)
Lemma generator_source_is_live :
  reading world0 (applyTo world0 cola (generator_iterable 7) None)
          (KStr "PORT") = Ok (VStr "3000") /\
  reading world1 (applyTo world0 cola (generator_iterable 7) None)
          (KStr "PORT") = Ok (VStr "4000").
Proof. split; reflexivity. Qed.

(** An iterable whose iterator method is built in, such as a [Map], is
    stored under [**] as a bound function that is not a generator function:
    [_getRelevantKeys] never iterates it, and the layer claims no key. *)
Lemma builtin_iterable_claims_nothing w w' own proto it opts a :
  it_gen it = false ->
  first_is_pair (w_iter w (it_id it)) = true ->
  applyTo w (OOrd own proto) (SrcIterable it) opts = Ok a ->
  _getRelevantKeys w' (instance_of a) = Ok ([], []).
Proof.
  intros Hg Hf Ha.
  apply applyTo_ordinary in Ha as (kvm0 & Hn & Hk & _).
  unfold normalize, is_entryIterator in Hn. simpl in Hn.
  rewrite Hf, Hg in Hn. injection Hn as <-.
  assert (HG : is_genFn (get_member (keyValueMap (instance_of a)) GENFN)
               = false)
    by (rewrite Hk; now destruct (fallback (resolve_options opts))).
  rewrite (getRelevantKeys_no_generator _ _ HG).
  unfold literal_keys. rewrite Hk.
  destruct (fallback (resolve_options opts)); simpl;
    repeat match goal with
           | |- context [existsb ?f ?l] => destruct (existsb f l); simpl
           end; reflexivity.
Qed.

(** C5, at the input of the Iterables example.  The source is a [Map]
    holding [PORT -> '3000']; it is changed to hold [PORT -> '4000']
    between two reads.  Both reads of [PORT] give [undefined], where the
    claim expects ['3000'] and then ['4000']. *)
Theorem C5_map_source_is_never_read :
  reading world0 (applyTo world0 cola (map_iterable 7) None)
          (KStr "PORT") = Ok VUndef /\
  reading world1 (applyTo world0 cola (map_iterable 7) None)
          (KStr "PORT") = Ok VUndef /\
  relevant world1 (applyTo world0 cola (map_iterable 7) None) = Ok [].
Proof. repeat split; reflexivity. Qed.

(** ** Keys of the generator snapshot (C6, C7) *)




(** The two marker keys are never among the literal keys. *)
Lemma markers_not_literal_keys instance :
  ~ In ALL (literal_keys instance) /\ ~ In GENFN (literal_keys instance).
Proof.
  rewrite !literal_keys_In. split; intros (_ & _ & H1 & H2); congruence.
Qed.

(** C7, at a generator source that yields the marker key [*].  The key
    [*] is listed by the [ownKeys] trap, under the default options and
    under [fallback: false]; with [fallback: false] it is also listed by
    the enumeration of the proxy, the existence check reports it present
    on a target that has no such property, and reading it returns the
    yielded value like any mapped property. *)
Theorem C7_generator_marker_key_is_exposed :
  relevant world0 (applyTo world0 cola (generator_iterable 10) None)
    = Ok [ALL] /\
  relevant world0 (applyTo world0 cola (generator_iterable 10) no_fallback)
    = Ok [ALL] /\
  enumerating world0 (applyTo world0 cola (generator_iterable 10) no_fallback)
    = Ok [ALL] /\
  js_has world0 cola ALL = Ok false /\
  having world0 (applyTo world0 cola (generator_iterable 10) no_fallback) ALL
    = Ok true /\
  reading world0 (applyTo world0 cola (generator_iterable 10) no_fallback) ALL
    = Ok (VNum 1).
Proof. repeat split; reflexivity. Qed.

(** ** The key list and its enumeration (C8) *)






(** ** Entries that hold [null] or [undefined] (C9, C10) *)

Lemma not_excluded k excepts :
  ~ In (key_value k) excepts -> existsb (strict_eq k) excepts = false.
Proof.
  intros H. destruct (existsb (strict_eq k) excepts) eqn:E; [|reflexivity].
  exfalso. apply H. apply existsb_exists in E as (v & Hv & He).
  destruct k, v; simpl in *; try discriminate.
  - apply String.eqb_eq in He. now subst.
  - apply Nat.eqb_eq in He. now subst.
Qed.

(** A literal entry that is neither excluded nor a marker is a relevant
    key, whatever it holds. *)
Lemma literal_entry_is_relevant w own proto s opts M a K v keys genObject :
  literal s = Some M ->
  lookup K M = Some v ->
  applyTo w (OOrd own proto) s opts = Ok a ->
  _getRelevantKeys w (instance_of a) = Ok (keys, genObject) ->
  K <> ALL -> K <> GENFN -> K <> KStr "__proto__" ->
  ~ In (key_value K) (except (resolve_options opts)) ->
  lookup K (keyValueMap (instance_of a)) = Some v /\ In K keys.
Proof.
  intros HM HK Ha HR Hall Hgen Hproto Hex.
  pose proof (applyTo_ordinary _ _ _ _ _ _ Ha) as (kvm0 & _ & _ & Ho & _).
  assert (HKi : lookup K (keyValueMap (instance_of a)) = Some v)
    by (rewrite (literal_installed w own proto s opts M a K); assumption).
  split; [exact HKi|].
  destruct (getRelevantKeys_inv _ _ _ _ HR) as [_ ->].
  apply in_or_app. left. apply literal_keys_In. rewrite Ho.
  repeat split; try assumption.
  - eapply lookup_Some_In; eassumption.
  - now apply not_excluded.
Qed.

(** A relevant key for which the mapping holds [null] or [undefined], the
    snapshot holds nothing and [Object.prototype] has no property reads as
    [undefined] through the trap. *)
Lemma get_trap_nullish w instance rg target K receiver keys genObject v :
  _getRelevantKeys w instance = Ok (keys, genObject) ->
  In K keys ->
  lookup K (keyValueMap instance) = Some v ->
  is_nullish v = true ->
  lookup K genObject = None ->
  lookup K Object_prototype = None ->
  get_trap w instance rg target K receiver = Ok VUndef.
Proof.
  intros HR Hin Hv Hn Hg Hp.
  rewrite (get_trap_hit _ _ _ _ _ _ _ _ HR Hin).
  rewrite (get_member_own _ _ _ Hv), (get_member_inherited _ _ Hg), Hp.
  destruct v; try discriminate Hn; simpl; now rewrite andb_false_r.
Qed.

(** C9, as amended.  For every key [K] of a literal mapping whose mapped
    value is [null], where [K] is not a marker key or [__proto__], is not
    listed in [except], names no property of [Object.prototype], is not
    yielded by the generator source and is not an own property of [T]:
    reading [T.K] after installation returns [undefined], not [null]. *)
Theorem C9_null_entry_reads_undefined
    w own proto s opts M a K keys genObject :
  literal s = Some M ->
  lookup K M = Some VNull ->
  applyTo w (OOrd own proto) s opts = Ok a ->
  _getRelevantKeys w (instance_of a) = Ok (keys, genObject) ->
  K <> ALL -> K <> GENFN -> K <> KStr "__proto__" ->
  ~ In (key_value K) (except (resolve_options opts)) ->
  lookup K Object_prototype = None ->
  lookup K genObject = None ->
  lookup K own = None ->
  read w (target_of a) K = Ok VUndef.
Proof.
  intros HM HK Ha HR Hall Hgen Hproto Hex Hop Hg Hown.
  destruct (literal_entry_is_relevant _ _ _ _ _ _ _ _ _ _ _
              HM HK Ha HR Hall Hgen Hproto Hex) as [HKi Hin].
  rewrite (read_through_layer _ _ _ _ _ _ K Ha), Hown.
  now apply (get_trap_nullish _ _ _ _ _ _ keys genObject VNull).
Qed.

Lemma C9_witness :
  exists a,
    applyTo world0 cola nullish_props None = Ok a /\
    literal nullish_props
      = Some [(KStr "nullProp", VNull); (KStr "undefinedProp", VUndef)] /\
    read world0 (target_of a) (KStr "nullProp") = Ok VUndef.
Proof.
  eexists. split; [reflexivity|]. split; [reflexivity|].
  match goal with
  | |- read _ (target_of ?a) _ = _ =>
      apply (C9_null_entry_reads_undefined world0
               [(KStr "name", VStr "Cocacola")] Object_prototype_obj
               nullish_props None
               [(KStr "nullProp", VNull); (KStr "undefinedProp", VUndef)]
               a (KStr "nullProp")
               [KStr "nullProp"; KStr "undefinedProp"] [])
  end; try reflexivity; try discriminate.
  intros [].
Defined.

(** C9 as stated fails.  A key mapped to [null] and listed in [except]
    reads as the inherited value ['deep']; the key [toString] mapped to
    [null] reads as the result of calling the [toString] that the snapshot
    object inherits from [Object.prototype]; a key that [T] owns reads as
    the own value; the marker key [*] mapped to [null] reads as the
    inherited value. *)
Lemma C9_counterexample :
  reading world0
    (applyTo world0 heir (one_entry (KStr "k") VNull) (only_except [VStr "k"]))
    (KStr "k") = Ok (VStr "deep") /\
  reading world0
    (applyTo world0 cola (one_entry (KStr "toString") VNull) None)
    (KStr "toString") = Ok (VStr "[object Undefined]") /\
  reading world0
    (applyTo world0 cola (one_entry (KStr "name") VNull) None)
    (KStr "name") = Ok (VStr "Cocacola") /\
  reading world0
    (applyTo world0 star_heir (one_entry ALL VNull) None)
    ALL = Ok (VStr "star").
Proof. repeat split; reflexivity. Qed.

Lemma has_through_layer w own proto s opts a k :
  applyTo w (OOrd own proto) s opts = Ok a ->
  js_has w (target_of a) k =
  match lookup k own with
  | Some _ => Ok true
  | None => has_trap w (instance_of a) (js_has w proto k) k
  end.
Proof.
  intros H. pose proof (js_has_layer_target _ _ _ _ _ _ k H) as Hh.
  apply applyTo_ordinary in H as (kvm0 & _ & _ & _ & _ & Hp & Ht).
  rewrite Ht at 1. simpl.
  destruct (lookup k own); [reflexivity|].
  rewrite Hp at 1. simpl. now rewrite Hh.
Qed.

(** C10, as amended.  A literal entry [K] (not a marker key or
    [__proto__], not listed in [except]) whose mapped value is [undefined]
    or [null] is still claimed by the layer: [K] is a relevant key, the
    [ownKeys] trap lists it and the existence check reports it present.
    When moreover the generator snapshot does not yield [K], [K] names no
    property of [Object.prototype] and [T] does not own [K], reading [T.K]
    returns [undefined] whatever the wildcard handler and the original
    prototype chain would answer, so that a value for [K] deeper in the
    original chain is shadowed. *)
Theorem C10_nullish_entry_is_claimed_and_shadows
    w own proto s opts M a K v keys genObject :
  literal s = Some M ->
  lookup K M = Some v ->
  is_nullish v = true ->
  applyTo w (OOrd own proto) s opts = Ok a ->
  _getRelevantKeys w (instance_of a) = Ok (keys, genObject) ->
  K <> ALL -> K <> GENFN -> K <> KStr "__proto__" ->
  ~ In (key_value K) (except (resolve_options opts)) ->
  In K keys /\
  ownKeys_trap w (instance_of a) = Ok keys /\
  js_has w (target_of a) K = Ok true /\
  (lookup K genObject = None ->
   lookup K Object_prototype = None ->
   lookup K own = None ->
   read w (target_of a) K = Ok VUndef).
Proof.
  intros HM HK Hv Ha HR Hall Hgen Hproto Hex.
  destruct (literal_entry_is_relevant _ _ _ _ _ _ _ _ _ _ _
              HM HK Ha HR Hall Hgen Hproto Hex) as [HKi Hin].
  split; [exact Hin|]. split; [|split].
  - unfold ownKeys_trap. now rewrite HR.
  - rewrite (has_through_layer _ _ _ _ _ _ K Ha).
    destruct (lookup K own); [reflexivity|].
    unfold has_trap. rewrite HR. simpl.
    apply includes_In in Hin. now rewrite Hin.
  - intros Hg Hop Hown.
    rewrite (read_through_layer _ _ _ _ _ _ K Ha), Hown.
    now apply (get_trap_nullish _ _ _ _ _ _ keys genObject v).
Qed.

Lemma C10_witness :
  exists a,
    applyTo world0 heir (one_entry (KStr "k") VUndef) None = Ok a /\
    js_get world0 heir (KStr "k") (target_of a) = Ok (VStr "deep") /\
    ownKeys_trap world0 (instance_of a) = Ok [KStr "k"] /\
    js_has world0 (target_of a) (KStr "k") = Ok true /\
    read world0 (target_of a) (KStr "k") = Ok VUndef.
Proof.
  eexists. split; [reflexivity|]. split; [reflexivity|].
  match goal with
  | |- ownKeys_trap _ (instance_of ?a) = _ /\ _ =>
      destruct (C10_nullish_entry_is_claimed_and_shadows world0 []
                  (OOrd [(KStr "k", VStr "deep")] Object_prototype_obj)
                  (one_entry (KStr "k") VUndef) None
                  [(KStr "k", VUndef)] a (KStr "k") VUndef [KStr "k"] []
                  eq_refl eq_refl eq_refl eq_refl eq_refl)
        as (_ & Ht & Hh & Hr); try discriminate; try (intros [])
  end.
  split; [exact Ht|]. split; [exact Hh|].
  apply Hr; reflexivity.
Defined.

(** C10 as stated fails.  An entry mapped to [undefined] whose key is
    listed in [except] is not claimed: the [ownKeys] trap does not list it
    and the read returns the inherited value ['deep'].  The key [toString]
    mapped to [undefined] is claimed, and its read returns the result of
    calling the [toString] that the snapshot object inherits from
    [Object.prototype]. *)
Lemma C10_counterexample :
  relevant world0
    (applyTo world0 heir (one_entry (KStr "k") VUndef)
       (only_except [VStr "k"])) = Ok [] /\
  reading world0
    (applyTo world0 heir (one_entry (KStr "k") VUndef)
       (only_except [VStr "k"]))
    (KStr "k") = Ok (VStr "deep") /\
  reading world0
    (applyTo world0 cola (one_entry (KStr "toString") VUndef) None)
    (KStr "toString") = Ok (VStr "[object Undefined]").
Proof. repeat split; reflexivity. Qed.

(** ** The test suite, replayed on the model *)

Example test_basic_properties :
  reading world0
    (applyTo world0 testObj (one_entry (KStr "newProp") (VStr "new value")) None)
    (KStr "newProp") = Ok (VStr "new value") /\
  reading world0
    (applyTo world0 testObj (one_entry (KStr "newProp") (VStr "new value")) None)
    (KStr "originalProp") = Ok (VStr "original value").
Proof. split; reflexivity. Qed.

Example test_function_values :
  reading world0
    (applyTo world0 testObj (one_entry (KStr "dynamicProp") (VFun (FUser 3))) None)
    (KStr "dynamicProp") = Ok (VStr "dynamic value").
Proof. reflexivity. Qed.

Example test_ALL_handler :
  reading world0 (applyTo world0 testObj (SrcFn (FUser 2)) None)
    (KStr "missing") = Ok (VStr "custom fallback") /\
  reading world0 (applyTo world0 testObj (SrcFn (FUser 2)) None)
    (KStr "originalProp") = Ok (VStr "original value").
Proof. split; reflexivity. Qed.

Example test_except_option :
  reading world0
    (applyTo world0 testObj three_props (only_except [VStr "prop2"]))
    (KStr "prop1") = Ok (VStr "value1") /\
  reading world0
    (applyTo world0 testObj three_props (only_except [VStr "prop2"]))
    (KStr "prop2") = Ok VUndef /\
  reading world0
    (applyTo world0 testObj three_props (only_except [VStr "prop2"]))
    (KStr "prop3") = Ok (VStr "value3").
Proof. repeat split; reflexivity. Qed.

Example test_nullish_values :
  reading world0 (applyTo world0 testObj nullish_props None)
    (KStr "nullProp") = Ok VUndef /\
  reading world0 (applyTo world0 testObj nullish_props None)
    (KStr "undefinedProp") = Ok VUndef.
Proof. split; reflexivity. Qed.

Example test_symbol_properties :
  reading world0
    (applyTo world0 testObj (one_entry (KSym 5) (VStr "symbol value")) None)
    (KSym 5) = Ok (VStr "symbol value").
Proof. reflexivity. Qed.

Example test_existence_checks :
  having world0
    (applyTo world0 testObj (one_entry (KStr "prop1") (VStr "value1")) None)
    (KStr "originalProp") = Ok true /\
  having world0
    (applyTo world0 testObj (one_entry (KStr "prop1") (VStr "value1")) None)
    (KStr "prop1") = Ok true /\
  having world0
    (applyTo world0 testObj (one_entry (KStr "prop1") (VStr "value1")) None)
    (KStr "nonExistentProp") = Ok false.
Proof. repeat split; reflexivity. Qed.

Example test_chaining :
  reading world0
    (chained world0 testObj
       (one_entry (KStr "layer1") (VStr "layer 1 value"))
       (one_entry (KStr "layer2") (VStr "layer 2 value")))
    (KStr "layer1") = Ok (VStr "layer 1 value") /\
  reading world0
    (chained world0 testObj
       (one_entry (KStr "layer1") (VStr "layer 1 value"))
       (one_entry (KStr "layer2") (VStr "layer 2 value")))
    (KStr "layer2") = Ok (VStr "layer 2 value") /\
  reading world0
    (chained world0 testObj
       (one_entry (KStr "layer1") (VStr "layer 1 value"))
       (one_entry (KStr "layer2") (VStr "layer 2 value")))
    (KStr "originalProp") = Ok (VStr "original value").
Proof. repeat split; reflexivity. Qed.

(** * Further properties of the class *)

(** ** The target itself *)

(** X5.  An installation never touches the target's own properties,
    whatever the source and the options: the own keys of the target are
    the ones it had, an own property reads as its own value and is
    reported present, also when the mapping holds another value for the
    same key. *)
Theorem X5_own_properties_untouched w own proto s opts a K v :
  applyTo w (OOrd own proto) s opts = Ok a ->
  lookup K own = Some v ->
  js_ownKeys w (target_of a) = Ok (ownKeys own) /\
  read w (target_of a) K = Ok v /\
  js_has w (target_of a) K = Ok true.
Proof.
  intros Ha HK.
  pose proof (applyTo_ordinary _ _ _ _ _ _ Ha) as (_ & _ & _ & _ & _ & _ & Ht).
  split; [now rewrite Ht|]. split.
  - now rewrite (read_through_layer _ _ _ _ _ _ K Ha), HK.
  - rewrite Ht. simpl. now rewrite HK.
Qed.

Lemma X5_witness :
  exists a,
    applyTo world0 cola (one_entry (KStr "name") (VStr "Pepsi")) None = Ok a /\
    js_ownKeys world0 (target_of a) = Ok [KStr "name"] /\
    read world0 (target_of a) (KStr "name") = Ok (VStr "Cocacola").
Proof.
  eexists. split; [reflexivity|].
  match goal with
  | |- js_ownKeys _ (target_of ?a) = _ /\ _ =>
      destruct (X5_own_properties_untouched world0
                  [(KStr "name", VStr "Cocacola")] Object_prototype_obj
                  (one_entry (KStr "name") (VStr "Pepsi")) None a
                  (KStr "name") (VStr "Cocacola") eq_refl eq_refl)
        as (H1 & H2 & _)
  end.
  split; [exact H1 | exact H2].
Defined.

(** X4.  The original ancestry stays on the prototype chain when
    [copyParentProto] is set: the prototype of the target is the proxy and
    the prototype of the proxy is the original parent.  When it is not
    set, the proxy wraps the parent itself and its prototype is the
    parent's own parent: walking the chain from the target no longer
    meets the original parent. *)
Theorem X4_prototype_walk w own proto s opts a :
  applyTo w (OOrd own proto) s opts = Ok a ->
  getPrototypeOf (target_of a) = Ok (proxy_of a) /\
  getPrototypeOf (proxy_of a) =
    (if copyParentProto (resolve_options opts)
     then Ok proto else getPrototypeOf proto).
Proof.
  intros Ha.
  apply applyTo_ordinary in Ha as (_ & _ & _ & _ & Hl & Hp & Ht).
  split; [now rewrite Ht|].
  rewrite Hp. simpl. rewrite Hl.
  now destruct (copyParentProto (resolve_options opts)).
Qed.

Lemma X4_witness :
  exists a,
    applyTo world0 cola three_props None = Ok a /\
    getPrototypeOf (proxy_of a) = Ok Object_prototype_obj.
Proof.
  eexists. split; [reflexivity|].
  match goal with
  | |- getPrototypeOf (proxy_of ?a) = _ =>
      destruct (X4_prototype_walk world0 [(KStr "name", VStr "Cocacola")]
                  Object_prototype_obj three_props None a eq_refl)
        as [_ H]
  end.
  exact H.
Defined.

(** ** When the installation fails *)

Lemma fromEntries_into_result entries : forall o,
  if forallb is_entry_object entries
  then exists o', fromEntries_into o entries = Ok o'
  else fromEntries_into o entries = Throw TypeError.
Proof.
  induction entries as [|[k v|e l k v|p] r IH]; simpl; intros o.
  - now exists o.
  - apply IH.
  - apply IH.
  - reflexivity.
Qed.

Lemma pairs_are_objects l :
  forallb is_pair l = true -> forallb is_entry_object l = true.
Proof.
  rewrite !forallb_forall. intros H e He. specialize (H e He).
  now destruct e.
Qed.

Lemma normalize_fails w s :
  (exists e, normalize w s = Throw e) <->
  is_entries s = true /\ forallb is_entry_object (elements s) = false.
Proof.
  pose proof (fromEntries_into_result (elements s) []) as Hf.
  fold (Object_fromEntries (elements s)) in Hf.
  unfold normalize. destruct (is_entries s).
  - destruct (forallb is_entry_object (elements s)).
    + destruct Hf as [o' ->]. simpl.
      split; [intros [e H]; discriminate | intros [_ H]; discriminate].
    + rewrite Hf. simpl. split; [now split | intros _; now eexists].
  - split; [|intros [H _]; discriminate].
    intros [e H]. exfalso.
    destruct (is_function s); [discriminate|].
    destruct (is_entryIterator w s); [discriminate|].
    destruct (is_obj s); discriminate.
Qed.

(** X6.  Within the object model (an extensible ordinary target, a source
    whose iteration and whose elements do not throw when they are read),
    [applyTo] throws in two cases only: the source is an array that passes [is.entries], every element
    having a [length] equal to 2, and one of its elements is not an object
    (a string of two characters: [Object.fromEntries] rejects it); or
    [copyParentProto] is off and the target has no prototype (there is
    nothing to wrap in a Proxy).  In every other case it succeeds; an
    array of objects of length 2 that are not pairs (functions of two
    parameters) is accepted. *)
Theorem X6_applyTo_failure w own proto s opts :
  (exists e, applyTo w (OOrd own proto) s opts = Throw e) <->
  (is_entries s = true /\ forallb is_entry_object (elements s) = false) \/
  (copyParentProto (resolve_options opts) = false /\ proto = ONull).
Proof.
  rewrite <- (normalize_fails w s). unfold applyTo.
  destruct (normalize w s) as [kvm|e]; simpl.
  - destruct (copyParentProto (resolve_options opts)); simpl.
    + split; [intros [e H]; discriminate
             | intros [[e H]|[H _]]; discriminate].
    + destruct proto; simpl.
      * split; [right; now split | intros _; now eexists].
      * split; [intros [e H]; discriminate
               | intros [[e H]|[_ H]]; discriminate].
      * split; [intros [e H]; discriminate
               | intros [[e H]|[_ H]]; discriminate].
  - split; [intros _; left; now eexists | intros _; now eexists].
Qed.

(** A function of two parameters has length 2: an array of such functions
    passes [is.entries] and is accepted by [Object.fromEntries]; beside a
    string of two characters the array still passes [is.entries] and the
    string makes [Object.fromEntries] throw. *)
Example functions_of_two_parameters_pass_is_entries :
  (exists a,
     applyTo world0 cola
       (SrcArray [AObject (VFun (FUser 0)) true (KStr "undefined") VUndef])
       None = Ok a) /\
  applyTo world0 cola
    (SrcArray [AObject (VFun (FUser 0)) true (KStr "undefined") VUndef;
               APrimitive (PStr "ab")])
    None = Throw TypeError.
Proof. split; [eexists|]; reflexivity. Qed.

(** ** Existence checks *)

(** X1.  After an installation [K in T] holds exactly when [T] owns [K],
    or the layer claims [K], or [K] is found along the original chain.
    The wildcard handler is never asked: a key that only the wildcard
    answers is reported absent.  In particular a key present before the
    installation is still present after it. *)
Theorem X1_existence_check w own proto s opts a K keys genObject :
  applyTo w (OOrd own proto) s opts = Ok a ->
  _getRelevantKeys w (instance_of a) = Ok (keys, genObject) ->
  js_has w (target_of a) K =
    (if match lookup K own with Some _ => true | None => false end
        || includes keys K
     then Ok true
     else js_has w proto K) /\
  (js_has w (OOrd own proto) K = Ok true ->
   js_has w (target_of a) K = Ok true).
Proof.
  intros Ha HR.
  assert (E : js_has w (target_of a) K =
              if match lookup K own with Some _ => true | None => false end
                 || includes keys K
              then Ok true else js_has w proto K).
  { rewrite (has_through_layer _ _ _ _ _ _ K Ha).
    destruct (lookup K own); [reflexivity|].
    unfold has_trap. rewrite HR. reflexivity. }
  split; [exact E|].
  rewrite E. simpl. destruct (lookup K own); [reflexivity|]. simpl.
  destruct (includes keys K); [reflexivity | trivial].
Qed.

Lemma X1_witness :
  exists a,
    applyTo world0 testObj (SrcFn (FUser 2)) None = Ok a /\
    read world0 (target_of a) (KStr "missing") = Ok (VStr "custom fallback") /\
    js_has world0 (target_of a) (KStr "missing") = Ok false /\
    js_has world0 (target_of a) (KStr "toString") = Ok true.
Proof.
  eexists. split; [reflexivity|]. split; [reflexivity|].
  match goal with
  | |- js_has _ (target_of ?a) _ = _ /\ _ =>
      pose proof (fun K =>
        X1_existence_check world0
          [(KStr "originalMethod", VFun (FUser 4));
           (KStr "originalProp", VStr "original value")]
          Object_prototype_obj (SrcFn (FUser 2)) None a K [] []
          eq_refl eq_refl) as H
  end.
  split.
  - destruct (H (KStr "missing")) as [E _]. rewrite E. reflexivity.
  - destruct (H (KStr "toString")) as [_ E]. apply E. reflexivity.
Defined.

(** ** Sources that register nothing *)

(** X7.  A source that is neither an object nor a function (a number, a
    string, [null], [undefined]) registers nothing, and under [fallback]
    the layer is transparent: at any later moment every read and every
    existence check on the target gives what the original chain gives, and
    the [ownKeys] trap lists no key. *)
Theorem X7_unrecognized_source_is_transparent w w' own proto s opts a K :
  applyTo w (OOrd own proto) s opts = Ok a ->
  is_obj s = false ->
  is_function s = false ->
  fallback (resolve_options opts) = true ->
  read w' (target_of a) K = js_get w' (OOrd own proto) K (target_of a) /\
  js_has w' (target_of a) K = js_has w' (OOrd own proto) K /\
  ownKeys_trap w' (instance_of a) = Ok [].
Proof.
  intros Ha Ho Hf Hfb.
  assert (Hs : s = SrcOther) by (destruct s; try discriminate; reflexivity).
  subst s.
  pose proof (applyTo_ordinary _ _ _ _ _ _ Ha) as (kvm0 & Hn & Hk & Hopt & _).
  injection Hn as <-. rewrite Hfb in Hk.
  assert (HR : _getRelevantKeys w' (instance_of a) = Ok ([], [])).
  { rewrite getRelevantKeys_no_generator by (now rewrite Hk).
    unfold literal_keys. rewrite Hk. simpl.
    now destruct (existsb _ _). }
  assert (Ha' : applyTo w' (OOrd own proto) SrcOther opts = Ok a)
    by exact Ha.
  split; [|split].
  - rewrite (read_through_layer _ _ _ _ _ _ K Ha'), native_get.
    destruct (lookup K own); [reflexivity|].
    rewrite (get_trap_miss _ _ _ _ _ _ _ _ HR (fun x => x)), Hk.
    reflexivity.
  - rewrite (has_through_layer _ _ _ _ _ _ K Ha'). simpl.
    destruct (lookup K own); [reflexivity|].
    unfold has_trap. now rewrite HR.
  - unfold ownKeys_trap. now rewrite HR.
Qed.

Lemma X7_witness :
  exists a,
    applyTo world0 heir SrcOther None = Ok a /\
    read world1 (target_of a) (KStr "k") = Ok (VStr "deep") /\
    js_has world1 (target_of a) (KStr "zzz") = Ok false /\
    ownKeys_trap world1 (instance_of a) = Ok [].
Proof.
  eexists. split; [reflexivity|].
  match goal with
  | |- read _ (target_of ?a) _ = _ /\ _ =>
      pose proof (fun K =>
        X7_unrecognized_source_is_transparent world0 world1 []
          (OOrd [(KStr "k", VStr "deep")] Object_prototype_obj)
          SrcOther None a K eq_refl eq_refl eq_refl eq_refl) as H
  end.
  destruct (H (KStr "k")) as (H1 & _ & H3).
  destruct (H (KStr "zzz")) as (_ & H2 & _).
  split; [rewrite H1; reflexivity|].
  split; [rewrite H2; reflexivity | exact H3].
Defined.

(** ** The wildcard handler *)

(** X13.  How a miss is answered when the source supplies a function as
    wildcard handler.  For a key the layer does not claim and [T] does not
    own, the handler is called with the proxy target, the key and the
    receiver.  Under [fallback] an [undefined] answer is replaced by the
    lookup along the original chain; any other answer, [null] included, is
    the result of the read and hides what the chain holds; a failure of
    the handler is the failure of the read.  Without [fallback] the
    handler's outcome is the result as it is. *)
Theorem X13_wildcard_dispatch w own proto s opts a handler K keys genObject :
  applyTo w (OOrd own proto) s opts = Ok a ->
  wildcard_entry w s = VFun handler ->
  _getRelevantKeys w (instance_of a) = Ok (keys, genObject) ->
  ~ In K keys ->
  lookup K own = None ->
  read w (target_of a) K =
    let native := js_get w proto K (target_of a) in
    let answer :=
      call_fn w native handler (layer_target a) K (target_of a) in
    if fallback (resolve_options opts)
    then match answer with
         | Ok VUndef => native
         | _ => answer
         end
    else answer.
Proof.
  intros Ha He HR Hn Hown.
  pose proof (installed_wildcard _ _ _ _ _ _ Ha) as Hw. rewrite He in Hw.
  rewrite (read_through_layer _ _ _ _ _ _ K Ha), Hown.
  rewrite (get_trap_miss _ _ _ _ _ _ _ _ HR Hn), Hw. simpl.
  destruct (fallback (resolve_options opts)); simpl; [|reflexivity].
  destruct (call_fn w (js_get w proto K (target_of a)) handler
              (layer_target a) K (target_of a)) as [[]|e]; reflexivity.
Qed.

Lemma X13_witness :
  exists a,
    applyTo world0 heir (SrcFn (FUser 1)) None = Ok a /\
    js_get world0 heir (KStr "k") (target_of a) = Ok (VStr "deep") /\
    read world0 (target_of a) (KStr "k") = Ok (VStr "w").
Proof.
  eexists. split; [reflexivity|]. split; [reflexivity|].
  match goal with
  | |- read _ (target_of ?a) _ = _ =>
      rewrite (X13_wildcard_dispatch world0 []
                 (OOrd [(KStr "k", VStr "deep")] Object_prototype_obj)
                 (SrcFn (FUser 1)) None a (FUser 1) (KStr "k") [] []
                 eq_refl eq_refl eq_refl (fun x => x) eq_refl)
  end.
  reflexivity.
Defined.

(** X12.  Without [fallback] a value under [*] that is truthy but not a
    function is taken for a handler and called: reading a key that the
    layer does not claim and [T] does not own throws a [TypeError].  (With
    [fallback] such a value is replaced by the default lookup.) *)
Theorem X12_wildcard_that_is_not_a_function
    w own proto s opts a K keys genObject :
  applyTo w (OOrd own proto) s opts = Ok a ->
  fallback (resolve_options opts) = false ->
  truthy (wildcard_entry w s) = true ->
  is_fn (wildcard_entry w s) = false ->
  _getRelevantKeys w (instance_of a) = Ok (keys, genObject) ->
  ~ In K keys ->
  lookup K own = None ->
  read w (target_of a) K = Throw TypeError.
Proof.
  intros Ha Hf Ht Hnf HR Hn Hown.
  pose proof (installed_wildcard _ _ _ _ _ _ Ha) as Hw. rewrite Hf in Hw.
  rewrite (read_through_layer _ _ _ _ _ _ K Ha), Hown.
  rewrite (get_trap_miss _ _ _ _ _ _ _ _ HR Hn), Hw, Ht.
  destruct (wildcard_entry w s); try reflexivity. discriminate.
Qed.

Lemma X12_witness :
  exists a,
    applyTo world0 cola (one_entry ALL (VStr "x")) no_fallback = Ok a /\
    wildcard_entry world0 (one_entry ALL (VStr "x")) = VStr "x" /\
    read world0 (target_of a) (KStr "toString") = Throw TypeError.
Proof.
  eexists. split; [reflexivity|]. split; [reflexivity|].
  match goal with
  | |- read _ (target_of ?a) _ = _ =>
      apply (X12_wildcard_that_is_not_a_function world0
               [(KStr "name", VStr "Cocacola")] Object_prototype_obj
               (one_entry ALL (VStr "x")) no_fallback a
               (KStr "toString") [] [])
  end; try reflexivity.
  intros [].
Defined.

(** ** Entries of a literal mapping, under any options *)

(** What the [get] trap answers for a literal entry that holds a value
    other than [undefined] and [null], whatever arguments it is called
    with. *)
Lemma get_trap_literal_entry
    w own proto s opts M a K v keys genObject rg target receiver :
  literal s = Some M ->
  lookup K M = Some v ->
  applyTo w (OOrd own proto) s opts = Ok a ->
  _getRelevantKeys w (instance_of a) = Ok (keys, genObject) ->
  K <> ALL -> K <> GENFN -> K <> KStr "__proto__" ->
  ~ In (key_value K) (except (resolve_options opts)) ->
  is_nullish v = false ->
  get_trap w (instance_of a) rg target K receiver =
  if evalFns (resolve_options opts) && is_fn v
  then call_value w rg v target K receiver
  else Ok v.
Proof.
  intros HM HK Ha HR Hall Hgen Hproto Hex Hv.
  destruct (literal_entry_is_relevant _ _ _ _ _ _ _ _ _ _ _
              HM HK Ha HR Hall Hgen Hproto Hex) as [HKi Hin].
  pose proof (applyTo_ordinary _ _ _ _ _ _ Ha) as (_ & _ & _ & Ho & _).
  rewrite (get_trap_hit _ _ _ _ _ _ _ _ HR Hin), Ho.
  rewrite (get_member_own _ _ _ HKi).
  destruct v; try discriminate Hv; reflexivity.
Qed.

(** X2.  The [evalFns] option decides what a mapped function reads as.
    For a literal entry [K] that holds a function (not a marker key or
    [__proto__], not excluded, not an own key of [T]): with [evalFns] the
    read calls the function with the proxy target, the key and the
    receiver and returns what the call returns, a failure included;
    without [evalFns] the read returns the function itself and calls
    nothing. *)
Theorem X2_evalFns_toggle w own proto s opts M a K f keys genObject :
  literal s = Some M ->
  lookup K M = Some (VFun f) ->
  applyTo w (OOrd own proto) s opts = Ok a ->
  _getRelevantKeys w (instance_of a) = Ok (keys, genObject) ->
  K <> ALL -> K <> GENFN -> K <> KStr "__proto__" ->
  ~ In (key_value K) (except (resolve_options opts)) ->
  lookup K own = None ->
  read w (target_of a) K =
  if evalFns (resolve_options opts)
  then call_fn w (js_get w proto K (target_of a)) f
               (layer_target a) K (target_of a)
  else Ok (VFun f).
Proof.
  intros HM HK Ha HR Hall Hgen Hproto Hex Hown.
  rewrite (read_through_layer _ _ _ _ _ _ K Ha), Hown.
  rewrite (get_trap_literal_entry w own proto s opts M a K (VFun f)
             keys genObject) by (assumption || reflexivity).
  now destruct (evalFns (resolve_options opts)).
Qed.

Lemma X2_witness :
  exists a b,
    applyTo world0 cola cola_pairs
      (with_options None (Some false) None None) = Ok a /\
    read world0 (target_of a) (KStr "hasCalories") = Ok (VFun (FUser 0)) /\
    applyTo world0 cola cola_pairs None = Ok b /\
    read world0 (target_of b) (KStr "hasCalories") = Ok (VBool true).
Proof.
  eexists. eexists. split; [reflexivity|].
  assert (Hn : forall x : list value, ~ In (VStr "hasCalories") []) by (intros _ []).
  split; [|split; [reflexivity|]].
  - match goal with
    | |- read _ (target_of ?a) _ = _ =>
        rewrite (X2_evalFns_toggle world0 [(KStr "name", VStr "Cocacola")]
                   Object_prototype_obj cola_pairs
                   (with_options None (Some false) None None)
                   cola_entries a (KStr "hasCalories") (FUser 0)
                   [KStr "type"; KStr "hasCalories"] [])
    end; try reflexivity; try discriminate. apply (Hn []).
  - match goal with
    | |- read _ (target_of ?b) _ = _ =>
        rewrite (X2_evalFns_toggle world0 [(KStr "name", VStr "Cocacola")]
                   Object_prototype_obj cola_pairs None
                   cola_entries b (KStr "hasCalories") (FUser 0)
                   [KStr "type"; KStr "hasCalories"] [])
    end; try reflexivity; try discriminate. apply (Hn []).
Defined.

(** ** Which keys of a literal mapping are claimed *)

Lemma literal_installed_proto w own proto s opts M a :
  literal s = Some M ->
  applyTo w (OOrd own proto) s opts = Ok a ->
  lookup (KStr "__proto__") (keyValueMap (instance_of a)) = None.
Proof.
  intros HM Ha.
  apply applyTo_ordinary in Ha as (kvm0 & Hn & Hk & _).
  rewrite (normalize_literal w _ _ HM) in Hn. injection Hn as <-.
  rewrite Hk. destruct (fallback (resolve_options opts)).
  - rewrite lookup_with_fallback. simpl. apply lookup_Object_assign_proto.
  - apply lookup_Object_assign_proto.
Qed.

Lemma excluded_iff k excepts :
  existsb (strict_eq k) excepts = true <-> In (key_value k) excepts.
Proof.
  split; [|apply excluded_listed].
  intros H. apply existsb_exists in H as (v & Hv & He).
  destruct k, v; simpl in *; try discriminate.
  - apply String.eqb_eq in He. now subst.
  - apply Nat.eqb_eq in He. now subst.
Qed.

(** X14.  The keys that a layer claims from a literal mapping [M] are the
    keys of [M] except the two markers, [__proto__], and the keys that are
    strictly equal to an entry of [except]: an entry of [except] that is
    not the very string or symbol (the number [1] for the key ['1'])
    excludes nothing. *)
Theorem X14_claimed_literal_keys w own proto s opts M a K :
  literal s = Some M ->
  applyTo w (OOrd own proto) s opts = Ok a ->
  In K (literal_keys (instance_of a)) <->
  In K (map fst M) /\
  K <> ALL /\ K <> GENFN /\ K <> KStr "__proto__" /\
  ~ In (key_value K) (except (resolve_options opts)).
Proof.
  intros HM Ha.
  pose proof (applyTo_ordinary _ _ _ _ _ _ Ha) as (_ & _ & _ & Ho & _).
  pose proof (literal_installed_proto _ _ _ _ _ _ _ HM Ha) as Hp.
  rewrite literal_keys_In, Ho. split.
  - intros (Hin & Hex & Hall & Hgen).
    assert (Hnp : K <> KStr "__proto__").
    { intros ->. apply lookup_None in Hp. contradiction. }
    repeat split; try assumption.
    + destruct (lookup K M) as [v|] eqn:E;
        [now apply lookup_Some_In in E|].
      rewrite <- (literal_installed w own proto s opts M a K) in E
        by assumption.
      apply lookup_None in E. contradiction.
    + rewrite <- excluded_iff. congruence.
  - intros (Hin & Hall & Hgen & Hnp & Hex).
    repeat split; try assumption.
    + destruct (lookup K (keyValueMap (instance_of a))) as [v|] eqn:E;
        [now apply lookup_Some_In in E|].
      rewrite (literal_installed w own proto s opts M a K) in E
        by assumption.
      apply lookup_None in E. contradiction.
    + now apply not_excluded.
Qed.

Lemma X14_witness :
  exists a,
    applyTo world0 cola
      (SrcObj [(KStr "1", VStr "one"); (KStr "b", VStr "two")])
      (only_except [VNum 1; VStr "b"]) = Ok a /\
    In (KStr "1") (literal_keys (instance_of a)) /\
    ~ In (KStr "b") (literal_keys (instance_of a)).
Proof.
  eexists. split; [reflexivity|].
  match goal with
  | |- In _ (literal_keys (instance_of ?a)) /\ _ =>
      pose proof (fun K =>
        X14_claimed_literal_keys world0 [(KStr "name", VStr "Cocacola")]
          Object_prototype_obj
          (SrcObj [(KStr "1", VStr "one"); (KStr "b", VStr "two")])
          (only_except [VNum 1; VStr "b"])
          [(KStr "1", VStr "one"); (KStr "b", VStr "two")] a K
          eq_refl eq_refl) as H
  end.
  split.
  - apply (H (KStr "1")). repeat split; try discriminate.
    + now left.
    + intros [E|[E|[]]]; discriminate E.
  - intros Hb. apply (H (KStr "b")) in Hb as (_ & _ & _ & _ & Hex).
    apply Hex. right. now left.
Defined.

(** ** Pair lists with a repeated key *)

Lemma fromEntries_into_app l1 l2 : forall o,
  fromEntries_into o (l1 ++ l2) =
  (o1 <- fromEntries_into o l1 ;; fromEntries_into o1 l2).
Proof.
  induction l1 as [|[k v|e l k v|p] r IH]; simpl; intros o.
  - reflexivity.
  - apply IH.
  - apply IH.
  - reflexivity.
Qed.

Lemma fromEntries_into_other K l : forall o o',
  forallb is_pair l = true ->
  (forall v, ~ In (APair K v) l) ->
  fromEntries_into o l = Ok o' ->
  lookup K o' = lookup K o.
Proof.
  induction l as [|[k v|e n k v|p] r IH]; simpl; intros o o' Hp Hn E;
    try discriminate.
  - congruence.
  - rewrite (IH _ _ Hp (fun v' H => Hn v' (or_intror H)) E).
    rewrite lookup_set_prop.
    destruct (key_eqb_spec K k) as [->|_]; [|reflexivity].
    exfalso. apply (Hn v). now left.
Qed.

Lemma fromEntries_last_pair before after K v M :
  forallb is_pair after = true ->
  (forall v', ~ In (APair K v') after) ->
  Object_fromEntries (before ++ APair K v :: after) = Ok M ->
  lookup K M = Some v.
Proof.
  unfold Object_fromEntries. intros Hp Hn E.
  rewrite fromEntries_into_app in E.
  destruct (fromEntries_into [] before) as [o1|e]; simpl in E;
    [|discriminate].
  rewrite (fromEntries_into_other K after _ _ Hp Hn E), lookup_set_prop.
  now rewrite key_eqb_refl.
Qed.

(** X10.  In a list of pairs a later pair for a key replaces the earlier
    ones.  Let the last pair for [K] hold [v], where [v] is not
    [undefined] or [null], [K] is not a marker key or [__proto__], is not
    listed in [except] and is not an own key of [T], and no pair holds an
    object under [__proto__]: whenever the key computation succeeds, the
    read of [K] resolves from [v] (called when it is a function and
    [evalFns] is set), whatever the earlier pairs for [K] hold. *)
Theorem X10_later_pair_wins
    w own proto opts before after K v a keys genObject :
  forallb is_pair (before ++ APair K v :: after) = true ->
  (forall v', ~ In (APair K v') after) ->
  (forall p, In (APair (KStr "__proto__") p) (before ++ APair K v :: after) ->
             is_object p = false) ->
  applyTo w (OOrd own proto) (SrcArray (before ++ APair K v :: after)) opts
    = Ok a ->
  _getRelevantKeys w (instance_of a) = Ok (keys, genObject) ->
  K <> ALL -> K <> GENFN -> K <> KStr "__proto__" ->
  ~ In (key_value K) (except (resolve_options opts)) ->
  is_nullish v = false ->
  lookup K own = None ->
  read w (target_of a) K =
  if evalFns (resolve_options opts) && is_fn v
  then call_value w (js_get w proto K (target_of a)) v
                  (layer_target a) K (target_of a)
  else Ok v.
Proof.
  intros Hp Hn _ Ha HR Hall Hgen Hproto Hex Hv Hown.
  pose proof (fromEntries_into_result (before ++ APair K v :: after) [])
    as HM.
  rewrite (pairs_are_objects _ Hp) in HM. destruct HM as [M HM].
  assert (HL : literal (SrcArray (before ++ APair K v :: after)) = Some M).
  { simpl. rewrite Hp. unfold Object_fromEntries. now rewrite HM. }
  assert (Hpa : forallb is_pair after = true).
  { rewrite forallb_app in Hp. apply andb_true_iff in Hp as [_ Hp].
    simpl in Hp. exact Hp. }
  rewrite (read_through_layer _ _ _ _ _ _ K Ha), Hown.
  apply (get_trap_literal_entry w own proto
           (SrcArray (before ++ APair K v :: after)) opts M a K v
           keys genObject); try assumption.
  now apply (fromEntries_last_pair before after).
Qed.

Lemma X10_witness :
  exists a,
    applyTo world0 cola
      (SrcArray ([APair (KStr "type") (VStr "food")]
                 ++ APair (KStr "type") (VStr "drink") :: []))
      None = Ok a /\
    read world0 (target_of a) (KStr "type") = Ok (VStr "drink").
Proof.
  eexists. split; [reflexivity|].
  match goal with
  | |- read _ (target_of ?a) _ = _ =>
      rewrite (X10_later_pair_wins world0 [(KStr "name", VStr "Cocacola")]
                 Object_prototype_obj None
                 [APair (KStr "type") (VStr "food")] []
                 (KStr "type") (VStr "drink") a [KStr "type"] [])
  end; try reflexivity; try discriminate;
    first [ intros p [H|[H|[]]]; discriminate H
          | intros v' []
          | intros [] ].
Defined.

(** ** Layers observed at a later moment *)

(** The layer is installed in one world and read in another. *)
Lemma read_at w w' own proto s opts a k :
  applyTo w (OOrd own proto) s opts = Ok a ->
  read w' (target_of a) k =
  match lookup k own with
  | Some v => Ok v
  | None =>
      get_trap w' (instance_of a) (js_get w' proto k (target_of a))
               (layer_target a) k (target_of a)
  end.
Proof.
  intros H.
  apply applyTo_ordinary in H as (kvm0 & _ & _ & _ & Hl & Hp & Ht).
  unfold read. rewrite Ht at 1. simpl.
  destruct (lookup k own); [reflexivity|].
  rewrite Hp at 1. simpl. rewrite Hl at 1.
  now destruct (copyParentProto (resolve_options opts)).
Qed.

Lemma has_at w w' own proto s opts a k :
  applyTo w (OOrd own proto) s opts = Ok a ->
  js_has w' (target_of a) k =
  match lookup k own with
  | Some _ => Ok true
  | None => has_trap w' (instance_of a) (js_has w' proto k) k
  end.
Proof.
  intros H.
  apply applyTo_ordinary in H as (kvm0 & _ & _ & _ & Hl & Hp & Ht).
  rewrite Ht at 1. simpl.
  destruct (lookup k own); [reflexivity|].
  rewrite Hp at 1. simpl. rewrite Hl at 1.
  now destruct (copyParentProto (resolve_options opts)).
Qed.

(** A layer that claims nothing and whose wildcard is the default lookup
    lets every read and every existence check through. *)
Lemma nothing_claimed_is_transparent w w' own proto s opts a K :
  applyTo w (OOrd own proto) s opts = Ok a ->
  _getRelevantKeys w' (instance_of a) = Ok ([], []) ->
  get_member (keyValueMap (instance_of a)) ALL = VFun FReflectGet ->
  read w' (target_of a) K = js_get w' (OOrd own proto) K (target_of a) /\
  js_has w' (target_of a) K = js_has w' (OOrd own proto) K.
Proof.
  intros Ha HR Hall. split.
  - rewrite (read_at _ _ _ _ _ _ _ K Ha), native_get.
    destruct (lookup K own); [reflexivity|].
    now rewrite (get_trap_miss _ _ _ _ _ _ _ _ HR (fun x => x)), Hall.
  - rewrite (has_at _ _ _ _ _ _ _ K Ha). simpl.
    destruct (lookup K own); [reflexivity|].
    unfold has_trap. now rewrite HR.
Qed.

(** A [keyValueMap] that holds, beside the wildcard, only a function under
    [**] that is not a generator function claims nothing. *)
Lemma stored_function_claims_nothing w w' own proto s opts a f :
  applyTo w (OOrd own proto) s opts = Ok a ->
  normalize w s = Ok (assign_member [] GENFN (VFun f)) ->
  (forall id, f <> FGen id) ->
  _getRelevantKeys w' (instance_of a) = Ok ([], []) /\
  (fallback (resolve_options opts) = true ->
   get_member (keyValueMap (instance_of a)) ALL = VFun FReflectGet).
Proof.
  intros Ha Hn Hf.
  pose proof (applyTo_ordinary _ _ _ _ _ _ Ha) as (kvm0 & Hn' & Hk & _).
  rewrite Hn in Hn'. injection Hn' as <-.
  assert (HG : is_genFn (get_member (keyValueMap (instance_of a)) GENFN)
               = false).
  { rewrite Hk. destruct (fallback (resolve_options opts)); simpl;
      destruct f; try reflexivity; exfalso; eapply Hf; reflexivity. }
  split.
  - rewrite (getRelevantKeys_no_generator _ _ HG).
    unfold literal_keys. rewrite Hk.
    destruct (fallback (resolve_options opts)); simpl;
      repeat match goal with
             | |- context [existsb ?p ?l] => destruct (existsb p l); simpl
             end; reflexivity.
  - intros Hfb. rewrite Hk, Hfb. reflexivity.
Qed.

(** X9.  A source that passes [is.entryIterator] but whose iterator method
    is not a generator function (a [Map], a [Set] of pairs, an array that
    starts with a pair and also holds something of another length) is
    stored under [**] and never iterated: at any later moment the layer
    claims no key, whatever the source holds then, and under [fallback]
    every read and existence check gives what the original chain gives. *)
Theorem X9_builtin_iterator_is_never_iterated w w' own proto s opts a K :
  applyTo w (OOrd own proto) s opts = Ok a ->
  is_entries s = false ->
  is_function s = false ->
  is_entryIterator w s = true ->
  (forall id, bound_iterator s <> FGen id) ->
  ownKeys_trap w' (instance_of a) = Ok [] /\
  (fallback (resolve_options opts) = true ->
   read w' (target_of a) K = js_get w' (OOrd own proto) K (target_of a) /\
   js_has w' (target_of a) K = js_has w' (OOrd own proto) K).
Proof.
  intros Ha He Hf Hi Hb.
  assert (Hn : normalize w s
               = Ok (assign_member [] GENFN (VFun (bound_iterator s))))
    by (unfold normalize; now rewrite He, Hf, Hi).
  destruct (stored_function_claims_nothing w w' _ _ _ _ _ _ Ha Hn Hb)
    as [HR Hall].
  split.
  - unfold ownKeys_trap. now rewrite HR.
  - intros Hfb.
    exact (nothing_claimed_is_transparent w w' own proto s opts a K
             Ha HR (Hall Hfb)).
Qed.

Lemma X9_witness :
  exists a,
    applyTo world0 cola
      (SrcArray [APair (KStr "a") (VNum 1); APrimitive (PStr "x")]) None = Ok a /\
    ownKeys_trap world1 (instance_of a) = Ok [] /\
    read world1 (target_of a) (KStr "a") = Ok VUndef.
Proof.
  eexists. split; [reflexivity|].
  match goal with
  | |- ownKeys_trap _ (instance_of ?a) = _ /\ _ =>
      destruct (X9_builtin_iterator_is_never_iterated world0 world1
                  [(KStr "name", VStr "Cocacola")] Object_prototype_obj
                  (SrcArray [APair (KStr "a") (VNum 1); APrimitive (PStr "x")])
                  None a (KStr "a") eq_refl eq_refl eq_refl eq_refl)
        as [H1 H2]; [intros id; discriminate|]
  end.
  split; [exact H1|].
  destruct (H2 eq_refl) as [-> _]. reflexivity.
Defined.



(** ** Generator sources *)

(** What a layer installed from an iterable with a generator method
    computes at any later moment. *)
Lemma generator_layer w w' own proto it opts a :
  applyTo w (OOrd own proto) (SrcIterable it) opts = Ok a ->
  it_gen it = true ->
  first_is_pair (w_iter w (it_id it)) = true ->
  _getRelevantKeys w' (instance_of a) =
    (genObject <- Object_fromEntries (w_iter w' (it_id it)) ;;
     Ok (Object_keys genObject, genObject)) /\
  (forall K, K <> ALL -> K <> GENFN ->
             lookup K (keyValueMap (instance_of a)) = None).
Proof.
  intros Ha Hg Hf.
  pose proof (applyTo_ordinary _ _ _ _ _ _ Ha) as (kvm0 & Hn & Hk & _).
  unfold normalize, is_entryIterator in Hn. simpl in Hn.
  rewrite Hf, Hg in Hn. injection Hn as <-.
  split.
  - unfold _getRelevantKeys. rewrite Hk.
    destruct (fallback (resolve_options opts)); simpl;
      destruct (Object_fromEntries (w_iter w' (it_id it))); simpl;
      repeat match goal with
             | |- context [existsb ?p ?l] => destruct (existsb p l); simpl
             end; reflexivity.
  - intros K Hall Hgen. rewrite Hk.
    apply key_eqb_neq in Hall, Hgen.
    destruct (fallback (resolve_options opts)); simpl;
      unfold GENFN, ALL in *; rewrite ?Hgen, ?Hall; reflexivity.
Qed.

(** X15.  An iterable whose [Symbol.iterator] is a generator method is
    iterated anew at every trap call.  At any later moment the [ownKeys]
    trap lists the string keys the iterable yields at that moment, and
    the read of such a key [K] (not a marker, not a property name of
    [Object.prototype], not an own key of [T]) is resolved from the value
    yielded at that moment, called when it is a function and [evalFns] is
    set. *)
Theorem X15_generator_source_is_live w w' own proto it opts a genObject K v :
  applyTo w (OOrd own proto) (SrcIterable it) opts = Ok a ->
  it_gen it = true ->
  first_is_pair (w_iter w (it_id it)) = true ->
  Object_fromEntries (w_iter w' (it_id it)) = Ok genObject ->
  ownKeys_trap w' (instance_of a) = Ok (Object_keys genObject) /\
  (lookup K genObject = Some v ->
   is_symbol K = false ->
   K <> ALL -> K <> GENFN ->
   lookup K Object_prototype = None ->
   lookup K own = None ->
   read w' (target_of a) K =
   if evalFns (resolve_options opts) && is_fn v
   then call_value w' (js_get w' proto K (target_of a)) v
                   (layer_target a) K (target_of a)
   else Ok v).
Proof.
  intros Ha Hg Hf HG.
  destruct (generator_layer w w' _ _ _ _ _ Ha Hg Hf) as [HR Hkvm].
  rewrite HG in HR. simpl in HR.
  pose proof (applyTo_ordinary _ _ _ _ _ _ Ha) as (_ & _ & _ & Ho & _).
  split; [unfold ownKeys_trap; now rewrite HR|].
  intros Hv Hs Hall Hgen Hop Hown.
  rewrite (read_at _ _ _ _ _ _ _ K Ha), Hown.
  assert (Hin : In K (Object_keys genObject)).
  { apply Object_keys_In. split; [|exact Hs].
    eapply lookup_Some_In; eassumption. }
  rewrite (get_trap_hit _ _ _ _ _ _ _ _ HR Hin), Ho.
  rewrite (get_member_inherited _ _ (Hkvm K Hall Hgen)), Hop.
  rewrite (get_member_own _ _ _ Hv). reflexivity.
Qed.

Lemma X15_witness :
  exists a,
    applyTo world0 cola (generator_iterable 7) None = Ok a /\
    read world0 (target_of a) (KStr "PORT") = Ok (VStr "3000") /\
    read world1 (target_of a) (KStr "PORT") = Ok (VStr "4000").
Proof.
  eexists. split; [reflexivity|].
  match goal with
  | |- read _ (target_of ?a) _ = _ /\ _ =>
      pose proof (fun w' g v =>
        X15_generator_source_is_live world0 w'
          [(KStr "name", VStr "Cocacola")] Object_prototype_obj
          {| it_id := 7; it_gen := true; it_own := [] |} None a g
          (KStr "PORT") v eq_refl eq_refl eq_refl) as H
  end.
  split.
  - destruct (H world0 [(KStr "PORT", VStr "3000")] (VStr "3000") eq_refl)
      as [_ E].
    rewrite E; try reflexivity; discriminate.
  - destruct (H world1 [(KStr "PORT", VStr "4000")] (VStr "4000") eq_refl)
      as [_ E].
    rewrite E; try reflexivity; discriminate.
Defined.

(** X11.  The snapshot is built with [Object.fromEntries] before any trap
    looks at the key.  When the generator source yields, at some moment,
    an element that is not an object (a number, a string), every trap
    call of that moment throws a [TypeError]: the read and the existence
    check of any key that [T] does not own, whether the source yields it
    or not, and the enumeration of the proxy's own keys. *)
Theorem X11_malformed_entry_breaks_every_trap w w' own proto it opts a K :
  applyTo w (OOrd own proto) (SrcIterable it) opts = Ok a ->
  it_gen it = true ->
  first_is_pair (w_iter w (it_id it)) = true ->
  forallb is_entry_object (w_iter w' (it_id it)) = false ->
  lookup K own = None ->
  read w' (target_of a) K = Throw TypeError /\
  js_has w' (target_of a) K = Throw TypeError /\
  js_ownKeys w' (proxy_of a) = Throw TypeError.
Proof.
  intros Ha Hg Hf Hbad Hown.
  destruct (generator_layer w w' _ _ _ _ _ Ha Hg Hf) as [HR _].
  pose proof (fromEntries_into_result (w_iter w' (it_id it)) []) as HE.
  rewrite Hbad in HE. fold (Object_fromEntries (w_iter w' (it_id it))) in HE.
  rewrite HE in HR. simpl in HR.
  pose proof (applyTo_ordinary _ _ _ _ _ _ Ha) as (_ & _ & _ & _ & _ & Hp & _).
  split; [|split].
  - rewrite (read_at _ _ _ _ _ _ _ K Ha), Hown.
    unfold get_trap. now rewrite HR.
  - rewrite (has_at _ _ _ _ _ _ _ K Ha), Hown.
    unfold has_trap. now rewrite HR.
  - rewrite Hp. simpl. unfold ownKeys_trap. now rewrite HR.
Qed.

Lemma X11_witness :
  exists a,
    applyTo world0 cola (generator_iterable 7) None = Ok a /\
    read world0 (target_of a) (KStr "toString")
      = Ok (VFun (FObjectProto "toString")) /\
    read late_world (target_of a) (KStr "toString") = Throw TypeError /\
    js_has late_world (target_of a) (KStr "toString") = Throw TypeError /\
    js_ownKeys late_world (proxy_of a) = Throw TypeError.
Proof.
  eexists. split; [reflexivity|]. split; [reflexivity|].
  match goal with
  | |- read _ (target_of ?a) _ = _ /\ _ =>
      exact (X11_malformed_entry_breaks_every_trap world0 late_world
               [(KStr "name", VStr "Cocacola")] Object_prototype_obj
               {| it_id := 7; it_gen := true; it_own := [] |} None a
               (KStr "toString") eq_refl eq_refl eq_refl eq_refl eq_refl)
  end.
Defined.

(** ** Two layers on one target *)

Lemma literal_without_generator w w' own proto s opts M a :
  literal s = Some M ->
  (forall id, lookup GENFN M <> Some (VFun (FGen id))) ->
  applyTo w (OOrd own proto) s opts = Ok a ->
  _getRelevantKeys w' (instance_of a) = Ok (literal_keys (instance_of a), []).
Proof.
  intros HM Hgen Ha. apply getRelevantKeys_no_generator.
  unfold get_member.
  rewrite (literal_installed w own proto s opts M a GENFN)
    by (assumption || discriminate).
  destruct (lookup GENFN M) as [[| | | | | |[]|]|] eqn:E; try reflexivity.
  exfalso. eapply Hgen. reflexivity.
Qed.

(** X3.  Two literal mappings installed one after the other on the same
    target, with default options and no wildcard in the second: the second
    layer sits in front of the first.  Let [K] be a key other than the
    markers and [__proto__] that [T] does not own, and [v] a value that is
    not a function, [undefined] or [null]; let neither mapping store a
    generator function under [**] or an object under [__proto__].  If the
    second mapping holds [v] for [K], the read of [K] returns [v],
    whatever the first mapping holds for [K]; if the second mapping has no
    entry for [K] and the first holds [v], the read of [K] still returns
    [v] through the second layer. *)
Theorem X3_chained_layers w own proto s1 s2 M1 M2 K v :
  literal s1 = Some M1 ->
  literal s2 = Some M2 ->
  (forall id, lookup GENFN M1 <> Some (VFun (FGen id))) ->
  (forall id, lookup GENFN M2 <> Some (VFun (FGen id))) ->
  (forall p, lookup (KStr "__proto__") M1 = Some p -> is_object p = false) ->
  (forall p, lookup (KStr "__proto__") M2 = Some p -> is_object p = false) ->
  is_fn (wildcard_entry w s2) = false ->
  K <> ALL -> K <> GENFN -> K <> KStr "__proto__" ->
  lookup K own = None ->
  is_nullish v = false ->
  is_fn v = false ->
  lookup K M2 = Some v \/ (lookup K M2 = None /\ lookup K M1 = Some v) ->
  exists a,
    chained w (OOrd own proto) s1 s2 = Ok a /\
    read w (target_of a) K = Ok v.
Proof.
  intros HM1 HM2 Hg1 Hg2 _ _ Hw Hall Hgen Hproto Hown Hv Hf HK.
  destruct (applyTo_literal_succeeds w own proto s1 M1 None HM1 eq_refl)
    as [a1 Ha1].
  pose proof (applyTo_ordinary _ _ _ _ _ _ Ha1)
    as (_ & _ & _ & _ & _ & Hp1 & Ht1).
  destruct (applyTo_literal_succeeds w own (proxy_of a1) s2 M2 None HM2
              eq_refl) as [a2 Ha2].
  exists a2. split.
  - unfold chained. rewrite Ha1. simpl. now rewrite Ht1.
  - pose proof (literal_without_generator w w _ _ _ _ _ _ HM1 Hg1 Ha1) as HR1.
    pose proof (literal_without_generator w w _ _ _ _ _ _ HM2 Hg2 Ha2) as HR2.
    assert (Hne : forall x : list value, ~ In (key_value K) [])
      by (intros _ []).
    rewrite (read_through_layer _ _ _ _ _ _ K Ha2), Hown.
    destruct HK as [HK2 | [HK2 HK1]].
    + rewrite (get_trap_literal_entry w own (proxy_of a1) s2 None M2 a2 K v
                 _ _ _ _ _ HM2 HK2 Ha2 HR2 Hall Hgen Hproto (Hne []) Hv).
      simpl. now rewrite Hf.
    + assert (Hmiss : ~ In K (literal_keys (instance_of a2))).
      { rewrite literal_keys_In. intros (Hin & _).
        rewrite <- (literal_installed w own (proxy_of a1) s2 None M2 a2 K)
          in HK2 by assumption.
        apply lookup_None in HK2. contradiction. }
      rewrite (get_trap_miss _ _ _ _ _ _ _ _ HR2 Hmiss).
      rewrite (installed_wildcard _ _ _ _ _ _ Ha2). simpl.
      destruct (wildcard_entry w s2); try discriminate Hw; simpl;
        rewrite Hp1; simpl;
        rewrite (get_trap_literal_entry w own proto s1 None M1 a1 K v
                   _ _ _ _ _ HM1 HK1 Ha1 HR1 Hall Hgen Hproto (Hne []) Hv);
        simpl; now rewrite Hf.
Qed.

Lemma X3_witness :
  exists a,
    chained world0 testObj
      (SrcObj [(KStr "layer1", VStr "layer 1 value");
               (KStr "both", VStr "first")])
      (SrcObj [(KStr "layer2", VStr "layer 2 value");
               (KStr "both", VStr "second")]) = Ok a /\
    read world0 (target_of a) (KStr "layer1") = Ok (VStr "layer 1 value") /\
    read world0 (target_of a) (KStr "both") = Ok (VStr "second").
Proof.
  pose proof (fun K v =>
    X3_chained_layers world0
      [(KStr "originalMethod", VFun (FUser 4));
       (KStr "originalProp", VStr "original value")]
      Object_prototype_obj
      (SrcObj [(KStr "layer1", VStr "layer 1 value");
               (KStr "both", VStr "first")])
      (SrcObj [(KStr "layer2", VStr "layer 2 value");
               (KStr "both", VStr "second")])
      [(KStr "layer1", VStr "layer 1 value"); (KStr "both", VStr "first")]
      [(KStr "layer2", VStr "layer 2 value"); (KStr "both", VStr "second")]
      K v eq_refl eq_refl
      (fun id H => ltac:(discriminate H))
      (fun id H => ltac:(discriminate H))
      (fun p H => ltac:(discriminate H))
      (fun p H => ltac:(discriminate H)) eq_refl) as H.
  destruct (H (KStr "layer1") (VStr "layer 1 value"))
    as (a & Ha & H1); try reflexivity; try discriminate.
  { right. split; reflexivity. }
  destruct (H (KStr "both") (VStr "second"))
    as (a' & Ha' & H2); try reflexivity; try discriminate.
  { left. reflexivity. }
  assert (a' = a) as -> by (unfold testObj in *; congruence).
  exists a. repeat split; assumption.
Defined.
